(** * octant.misc: a shallow embedding and its specification

    The module [octant/misc.py] holds four public helpers over cyclone-track
    data: [calc_all_dens], [bin_count_tracks], [check_by_mask] and
    [check_far_from_boundaries].  They are glue over numpy, pandas and xarray;
    the embedding keeps the Python control flow (loops, early returns,
    exceptions, attribute assignment) and takes the numerical collaborators
    that live outside the module ([TrackRun.density], [utils.mask_tracks],
    [utils.great_circle]) as section variables.

    Numbers: Python floats and numpy float64 are IEEE binary64, modelled by
    Rocq's primitive floats; numpy [int] counters are 64-bit and wrap around;
    Python integers (years, months, indices) are [Z]. *)

From Stdlib Require Import ZArith Lia Ascii String PrimFloat FloatOps FloatAxioms SpecFloat.
From stdpp Require Import base tactics option list list_numbers strings.

Local Open Scope Z_scope.

(** ** Python exceptions and results *)

Inductive exn : Set :=
  | ArgumentError
  | AssertionError
  | IndexError
  | TypeError
  | UnboundLocalError
  | ValueError.

Inductive result (A : Type) : Type :=
  | Ok (a : A)
  | Raise (e : exn).
Arguments Ok {A} a.
Arguments Raise {A} e.

#[global] Instance result_ret : MRet result := λ A a, Ok a.
#[global] Instance result_bind : MBind result :=
  λ A B f m, match m with Ok a => f a | Raise e => Raise e end.

(** A [for] loop threading the loop-carried state and stopping at the first
    exception. *)
Fixpoint for_each {A S : Type} (body : S → A → result S) (s : S) (xs : list A)
  : result S :=
  match xs with
  | [] => Ok s
  | x :: xs' => s' ← body s x; for_each body s' xs'
  end.


(** ** numpy integer arrays *)

(** [dtype=int] is a signed 64-bit integer; array arithmetic wraps silently. *)
Definition wrap_int64 (z : Z) : Z := (z + 2 ^ 63) `mod` 2 ^ 64 - 2 ^ 63.

(** [np.zeros(n, dtype=int)]; a negative dimension raises [ValueError]. *)
Definition np_zeros (n : Z) : result (list Z) :=
  if n <? 0 then Raise ValueError else Ok (replicate (Z.to_nat n) 0).

(** Integer indexing of an axis of length [n]: negative indices count from
    the end, anything outside [-n, n) raises [IndexError]. *)
Definition np_index (n : nat) (i : Z) : result nat :=
  if (0 <=? i) && (i <? Z.of_nat n) then Ok (Z.to_nat i)
  else if (- Z.of_nat n <=? i) && (i <? 0) then Ok (Z.to_nat (Z.of_nat n + i))
  else Raise IndexError.

(** [a[i]], for a numpy array and for a Python list alike *)
Definition np_getitem {A : Type} (a : list A) (i : Z) : result A :=
  k ← np_index (length a) i;
  match a !! k with Some x => Ok x | None => Raise IndexError end.

(** [counter[i] += 1] *)
Definition np_incr (counter : list Z) (i : Z) : result (list Z) :=
  k ← np_index (length counter) i;
  Ok (alter (λ c, wrap_int64 (c + 1)) k counter).

(** [pandas.Series.unique()]: the distinct values in order of first
    appearance. *)
Fixpoint unique (l : list Z) : list Z :=
  match l with
  | [] => []
  | x :: l' => x :: filter (λ y, y ≠ x) (unique l')
  end.

(** [range(n)] *)
Definition py_range (n : Z) : list Z := seqZ 0 n.

(** ** Strings: [str.upper()] *)

(** Only the ASCII letters matter here: no other character has ["M"] or
    ["W"] as its upper case, and [upper] never shortens a string. *)
Definition ascii_upper (c : ascii) : ascii :=
  let n := nat_of_ascii c in
  if ((97 <=? n) && (n <=? 122))%nat then ascii_of_nat (n - 32) else c.

Fixpoint upper (s : string) : string :=
  match s with
  | EmptyString => EmptyString
  | String c s' => String (ascii_upper c) (upper s')
  end.

(** ** Tracks and track runs *)

(** A point of a track: its time stamp (the calendar fields that
    [df.time.dt] exposes) and its position in degrees. *)
Record Timestamp : Set := { year : Z; month : Z; day : Z }.

Record Row : Set := { time : Timestamp; lon : float; lat : float }.

(** [octant.core.OctantTrack]: the rows of one track, in file order.  The
    groups of [TrackRun.gb] have at least one row each. *)
Definition OctantTrack : Set := list Row.

(** A two-dimensional float64 array, one inner list per row. *)
Abbreviation grid := (list (list float)).

(** Element-wise operations on two-dimensional arrays of equal shape (the
    broadcasting that numpy applies to other shapes is not modelled). *)
Definition map2d {A B : Type} (f : A → B) (a : list (list A)) : list (list B) :=
  (λ row : list A, f <$> row) <$> a.

Definition zip2d {A B C : Type} (f : A → B → C) (a : list (list A))
    (b : list (list B)) : list (list C) :=
  zip_with (zip_with f) a b.

(** [trackrun.conf]: the optional domain bounds; [None] is an attribute that
    is missing or set to [None]. *)
Record TrackSettings : Set := {
  lon1 : option float;
  lon2 : option float;
  lat1 : option float;
  lat2 : option float
}.

(** [octant.core.TrackRun], as far as this module reads or writes it:
    [gb] is the tracks grouped by track index (key and group, in iteration
    order), [themask] the attribute that [check_by_mask] assigns. *)
Record TrackRun : Set := {
  gb : list (Z * OctantTrack);
  is_categorised : bool;
  cat_labels : list string;
  conf : TrackSettings;
  themask : option grid
}.

(** ** [bin_count_tracks] *)

Definition track_months (df : OctantTrack) : list Z :=
  unique ((λ r, month (time r)) <$> df).

Definition track_years (df : OctantTrack) : list Z :=
  unique ((λ r, year (time r)) <$> df).

(** Body of [for m in track_months: counter[m - 1] += 1]. *)
Definition month_body (counter : list Z) (m : Z) : result (list Z) :=
  np_incr counter (m - 1).

(** Body of [for i in range(n_winters)]. *)
Definition winter_body (months years : list Z) (start_year : Z)
    (counter : list Z) (i : Z) : result (list Z) :=
  m_last ← np_getitem months (-1);
  if m_last <=? 6 then
    y_first ← np_getitem years 0;
    if y_first =? i + start_year + 1 then np_incr counter i else Ok counter
  else
    y_last ← np_getitem years (-1);
    if y_last =? i + start_year then np_incr counter i else Ok counter.

(** The local variable [counter] is bound only inside the two [if] blocks;
    [None] is the unbound state, and reading it at [return counter] raises
    [UnboundLocalError].  The progress bar [pbar] iterates its argument
    unchanged. *)
Definition bin_count_tracks (tr_obj : TrackRun) (start_year n_winters : Z)
    (by_ : string) : result (list Z) :=
  let counter : option (list Z) := None in
  counter ←
    (if bool_decide (upper by_ = "M") then
       c ← np_zeros 12;
       c ← for_each (λ c g, for_each month_body c (track_months g.2)) c (gb tr_obj);
       Ok (Some c)
     else Ok counter);
  counter ←
    (if bool_decide (upper by_ = "W") then
       c ← np_zeros n_winters;
       c ← for_each
             (λ c g,
                let months := track_months g.2 in
                let years := track_years g.2 in
                for_each (winter_body months years start_year) c (py_range n_winters))
             c (gb tr_obj);
       Ok (Some c)
     else Ok counter);
  match counter with
  | Some c => Ok c
  | None => Raise UnboundLocalError
  end.

(** ** [calc_all_dens] *)

Definition DENSITY_TYPES : list string := ["point"; "track"; "genesis"; "lysis"].

(** What a caller may pass as [subsets]: [None], a bare string, a sequence
    of labels, or an object that is not iterable (a number stands for those). *)
Inductive py_subsets : Set :=
  | PyNone
  | PyStr (s : string)
  | PyList (l : list string)
  | PyNumber (n : Z).

(** [isinstance(x, Iterable)] and [isinstance(x, str)] *)
Definition is_iterable (x : py_subsets) : bool :=
  match x with PyStr _ | PyList _ => true | PyNone | PyNumber _ => false end.

Definition is_str (x : py_subsets) : bool :=
  match x with PyStr _ => true | _ => false end.

(** Iterating the object in a [for] statement. *)
Definition py_iter (x : py_subsets) : result (list string) :=
  match x with
  | PyList l => Ok l
  | PyStr s => Ok ((λ c, String c EmptyString) <$> list_ascii_of_string s)
  | PyNone | PyNumber _ => Raise TypeError
  end.

(** A one-dimensional labelled array used as the coordinate of a new axis. *)
Record Coord : Set := { coord_name : string; coord_dims : string; coord_data : list string }.

(** [xr.DataArray(name=n, dims=(n), data=d)]: anything but a sequence is
    zero-dimensional data, which does not fit the one dimension name and
    raises [ValueError]. *)
Definition xr_DataArray (name : string) (data : py_subsets) : result Coord :=
  match data with
  | PyList l => Ok {| coord_name := name; coord_dims := name; coord_data := l |}
  | PyNone | PyStr _ | PyNumber _ => Raise ValueError
  end.

(** The result of stacking arrays along a new axis. *)
Record Stack (A : Type) : Type := { stack_dim : Coord; stack_items : list A }.
Arguments stack_dim {A} s.
Arguments stack_items {A} s.

(** [xr.concat(objs, dim=coord)]: needs at least one object, and as many
    labels as objects. *)
Definition xr_concat {A : Type} (objs : list A) (dim : Coord) : result (Stack A) :=
  match objs with
  | [] => Raise ValueError
  | _ :: _ =>
      if bool_decide (length (coord_data dim) = length objs)
      then Ok {| stack_dim := dim; stack_items := objs |}
      else Raise ValueError
  end.

(** The four-dimensional array (subset, dens_type, latitude, longitude). *)
Record DataArray4 : Set := { da_name : string; da_data : Stack (Stack grid) }.

(** Calls of [tr_obj.density] are recorded, in order, as (by, subset); the
    computation threads this log and may raise. *)
Definition call : Set := string * string.

Definition M (A : Type) : Type := list call → result A * list call.

Definition ret {A : Type} (a : A) : M A := λ log, (Ok a, log).

Definition raise {A : Type} (e : exn) : M A := λ log, (Raise e, log).

Definition lift {A : Type} (r : result A) : M A := λ log, (r, log).

Definition bind {A B : Type} (m : M A) (k : A → M B) : M B :=
  λ log, match m log with
         | (Ok a, log') => k a log'
         | (Raise e, log') => (Raise e, log')
         end.

Notation "'do' x <- m ; k" := (bind m (λ x, k))
  (at level 10, x name, m at level 100, k at level 200).

(** A [for] loop that appends one result per item to a Python list. *)
Fixpoint for_append {A B : Type} (body : A → M B) (acc : list B) (xs : list A)
  : M (list B) :=
  match xs with
  | [] => ret acc
  | x :: xs' => do b <- body x; for_append body (acc ++ [b]) xs'
  end.

Section calc_all_dens.
Context {kwargs : Type}.

(** [TrackRun.density(lon2d, lat2d, by=..., subset=..., **kwargs)], defined
    in [octant.core]: a two-dimensional field on the grid, or an exception. *)
Variable density : TrackRun → grid → grid → string → string → kwargs → result grid.

Definition call_density (tr_obj : TrackRun) (lon2d lat2d : grid)
    (by_ subset : string) (kw : kwargs) : M grid :=
  λ log, (density tr_obj lon2d lat2d by_ subset kw, log ++ [(by_, subset)]).

Definition calc_all_dens (tr_obj : TrackRun) (lon2d lat2d : grid)
    (subsets : py_subsets) (density_types : list string) (kw : kwargs)
  : M DataArray4 :=
  do subsets <-
    match subsets with
    | PyNone =>
        if is_categorised tr_obj then ret (PyList (cat_labels tr_obj))
        else ret PyNone
    | _ =>
        if negb (is_iterable subsets) || is_str subsets
        then raise ArgumentError
        else ret subsets
    end;
  do subset_dim <- lift (xr_DataArray "subset" subsets);
  do dens_dim <- lift (xr_DataArray "dens_type" (PyList density_types));
  do items <- lift (py_iter subsets);
  do list1 <-
    for_append
      (λ subset,
         do list2 <-
           for_append (λ by_, call_density tr_obj lon2d lat2d by_ subset kw)
                      [] density_types;
         lift (xr_concat list2 dens_dim))
      [] items;
  do da <- lift (xr_concat list1 subset_dim);
  ret {| da_name := "density"; da_data := da |}.
End calc_all_dens.

(** ** [check_by_mask] *)

(** A two-dimensional land-sea mask on a regular grid: [lsm.longitude],
    [lsm.latitude] and [lsm.values], the latter with one row per latitude. *)
Record LandSeaMask : Set := {
  longitude : list float;
  latitude : list float;
  values : grid
}.

(** The [lsm] argument: an [xarray.DataArray] or some other object. *)
Inductive py_lsm : Set :=
  | XrDataArray (d : LandSeaMask)
  | NotDataArray.

(** [np.meshgrid(x, y)]: both results have shape [(len(y), len(x))]. *)
Definition np_meshgrid (x y : list float) : grid * grid :=
  (replicate (length y) x, (λ v, replicate (length x) v) <$> y).

(** Truth value of a number: anything but zero; [NaN] is true. *)
Definition py_bool (x : float) : bool := negb (PrimFloat.eqb x 0).

(** [inner_idx] starts as the Python constant [True] and becomes a boolean
    array with the first [&=]. *)
Inductive inner_idx_t : Set :=
  | PyTrue
  | BoolArray (a : list (list bool)).

(** [inner_idx &= a], where [True & a] is [a]. *)
Definition iand (idx : inner_idx_t) (a : list (list bool)) : inner_idx_t :=
  match idx with
  | PyTrue => BoolArray a
  | BoolArray b => BoolArray (zip2d andb b a)
  end.

(** [if getattr(conf, name, None): inner_idx &= coords `cmp` conf.name] *)
Definition apply_bound (bound : option float) (cmp : float → float → bool)
    (coords : grid) (idx : inner_idx_t) : inner_idx_t :=
  match bound with
  | Some x => if py_bool x then iand idx (map2d (λ v, cmp v x) coords) else idx
  | None => idx
  end.

Definition ge (v x : float) : bool := PrimFloat.leb x v.
Definition le (v x : float) : bool := PrimFloat.leb v x.
Definition gt (v x : float) : bool := PrimFloat.ltb x v.
Definition lt (v x : float) : bool := PrimFloat.ltb v x.

(** [~b] on a Python [bool] is integer complement. *)
Definition py_invert_bool (b : bool) : Z := - Z.b2z b - 1.

(** [boundary_mask[~inner_idx] = 1.0]: a boolean array selects cells, the
    integer [~True] selects a whole row of the first axis. *)
Definition assign_outside (idx : inner_idx_t) (boundary_mask : grid) : result grid :=
  match idx with
  | PyTrue =>
      k ← np_index (length boundary_mask) (py_invert_bool true);
      Ok (alter (λ row : list float, (λ _, 1%float) <$> row) k boundary_mask)
  | BoolArray a =>
      Ok (zip2d (λ (b : bool) v, if negb b then 1%float else v) a boundary_mask)
  end.

(** [(b) * 1.0] for a boolean [b] *)
Definition bool_times (b : bool) (x : float) : float :=
  ((if b then 1 else 0) * x)%float.

Definition set_themask (trackrun : TrackRun) (m : grid) : TrackRun :=
  {| gb := gb trackrun; is_categorised := is_categorised trackrun;
     cat_labels := cat_labels trackrun; conf := conf trackrun;
     themask := Some m |}.

Definition lonlat_c (ot : OctantTrack) : list (float * float) :=
  (λ r, (lon r, lat r)) <$> ot.

Section check_by_mask.
(** [octant.utils.mask_tracks(mask, lon2d, lat2d, lonlat, rad)]: the
    measure of the track that lies within [rad] metres of a masked cell. *)
Variable mask_tracks : grid → grid → grid → list (float * float) → float → float.

(** Returns the flag (or the exception) and the track run as the call
    leaves it. *)
Definition check_by_mask (ot : OctantTrack) (trackrun : TrackRun) (lsm : py_lsm)
    (lmask_thresh rad mask_thresh : float) : result bool * TrackRun :=
  match lsm with
  | NotDataArray => (Raise AssertionError, trackrun)
  | XrDataArray lsm =>
      let '(lon2d, lat2d) := np_meshgrid (longitude lsm) (latitude lsm) in
      let l_mask := values lsm in
      let inner_idx := PyTrue in
      let inner_idx := apply_bound (lon1 (conf trackrun)) ge lon2d inner_idx in
      let inner_idx := apply_bound (lon2 (conf trackrun)) le lon2d inner_idx in
      let inner_idx := apply_bound (lat1 (conf trackrun)) ge lat2d inner_idx in
      let inner_idx := apply_bound (lat2 (conf trackrun)) le lat2d inner_idx in
      let boundary_mask := map2d (λ _, 0%float) lon2d in
      match assign_outside inner_idx boundary_mask with
      | Raise e => (Raise e, trackrun)
      | Ok boundary_mask =>
          let m :=
            zip2d (λ b l, bool_times (PrimFloat.eqb b 1 || ge l lmask_thresh) 1)
                  boundary_mask l_mask in
          let trackrun := set_themask trackrun m in
          let themask_c := m in
          let flag :=
            lt (mask_tracks themask_c lon2d lat2d (lonlat_c ot) (rad * 1000)%float)
               mask_thresh in
          (Ok flag, trackrun)
      end
  end.
End check_by_mask.

(** ** [check_far_from_boundaries] *)

Section check_far_from_boundaries.
(** [octant.utils.great_circle(lon1, lon2, lat1, lat2)], in metres. *)
Variable great_circle : float → float → float → float → float.

(** The closure [_func] for edge number [i] with value [ll]. *)
Definition _func (i : nat) (ll : float) (row : Row) : result float :=
  let args := [lon row; lon row; lat row; lat row] in
  let k := (2 * (i `div` 2))%nat in
  if bool_decide (k < length args)%nat then
    match <[k := ll]> args with
    | [a; b; c; d] => Ok (great_circle a b c d)
    | _ => Raise TypeError
    end
  else Raise IndexError.

Definition in_box (b0 b1 b2 b3 : float) (row : Row) : bool :=
  ge (lon row) b0 && le (lon row) b1 && ge (lat row) b2 && le (lat row) b3.

Definition check_far_from_boundaries (ot : OctantTrack) (lonlat_box : list float)
    (dist : float) : result bool :=
  b0 ← np_getitem lonlat_box 0;
  b1 ← np_getitem lonlat_box 1;
  b2 ← np_getitem lonlat_box 2;
  b3 ← np_getitem lonlat_box 3;
  let result := forallb (in_box b0 b1 b2 b3) ot in
  if negb result then Ok false
  else
    for_each
      (λ (result : bool) '(i, ll),
         ds ← mapM (_func i ll) ot;
         Ok (result && forallb (λ d, gt d dist) ds))
      result (imap (λ i ll, (i, ll)) lonlat_box).
End check_far_from_boundaries.

(** * Specification vocabulary and example data *)

(** The calendar months and years of the points of a track, in row order. *)
Definition months_of (df : OctantTrack) : list Z := (λ r, month (time r)) <$> df.
Definition years_of (df : OctantTrack) : list Z := (λ r, year (time r)) <$> df.

(** The last month that the track enters, its first year and the last year
    that it enters. *)
Definition last_month (df : OctantTrack) : option Z := last (unique (months_of df)).
Definition first_year (df : OctantTrack) : option Z := head (years_of df).
Definition last_year (df : OctantTrack) : option Z := last (unique (years_of df)).

(** The track counts for winter [i] of a series that starts in
    [start_year]. *)
Definition in_winter (start_year i : Z) (df : OctantTrack) : bool :=
  match last_month df, first_year df, last_year df with
  | Some m, Some y_first, Some y_last =>
      if bool_decide (m ≤ 6) then bool_decide (y_first = start_year + 1 + i)
      else bool_decide (y_last = start_year + i)
  | _, _, _ => false
  end.

(** The number of groups that [touch] bucket [k]. *)
Definition tally {G : Type} (touch : G → nat → bool) (k : nat) (gs : list G) : nat :=
  length (filter (λ g, touch g k = true) gs).

(** Example data: a track of March and April 2001 (three points), a track of
    December 2002 and a track that runs from December 2000 into January 2001. *)
Definition point (y m d : Z) : Row :=
  {| time := {| year := y; month := m; day := d |}; lon := 5; lat := 70 |}.

Definition example_run : TrackRun :=
  {| gb := [(0, [point 2001 3 30; point 2001 3 31; point 2001 4 1]);
            (1, [point 2002 12 24]);
            (2, [point 2000 12 31; point 2001 1 1])];
     is_categorised := false;
     cat_labels := [];
     conf := {| lon1 := None; lon2 := None; lat1 := None; lat2 := None |};
     themask := None |}.


(** The distance from a point to edge [i] of the box, whose value is [ll]:
    the great-circle distance to the point with the longitude (edges 0
    and 1) or the latitude (edges 2 and 3) replaced by [ll]. *)
Definition edge_distance (great_circle : float → float → float → float → float)
    (i : nat) (ll : float) (row : Row) : float :=
  if (i <? 2)%nat then great_circle ll (lon row) (lat row) (lat row)
  else great_circle (lon row) (lon row) ll (lat row).

(** The point lies in the closed box. *)
Definition inside_box (lon_min lon_max lat_min lat_max : float) (row : Row) : Prop :=
  PrimFloat.leb lon_min (lon row) = true ∧ PrimFloat.leb (lon row) lon_max = true
  ∧ PrimFloat.leb lat_min (lat row) = true ∧ PrimFloat.leb (lat row) lat_max = true.

(** The point is strictly farther than [dist] from every edge. *)
Definition farther_than (great_circle : float → float → float → float → float)
    (dist : float) (box : list float) (row : Row) : Prop :=
  ∀ (i : nat) ll, box !! i = Some ll →
    PrimFloat.ltb dist (edge_distance great_circle i ll row) = true.

(** The point is at least [dist] away from every edge. *)
Definition at_least_dist (great_circle : float → float → float → float → float)
    (dist : float) (box : list float) (row : Row) : bool :=
  forallb (λ e : nat * float, PrimFloat.leb dist (edge_distance great_circle e.1 e.2 row))
          (imap (λ i ll, (i, ll)) box).

(** The main check as one expression: every point is farther than [dist]
    from every edge. *)
Definition all_far (great_circle : float → float → float → float → float)
    (ot : OctantTrack) (box : list float) (dist : float) : bool :=
  forallb (λ e : nat * float,
             forallb (λ d, gt d dist) (edge_distance great_circle e.1 e.2 <$> ot))
          (imap (λ i ll, (i, ll)) box).

(** The point lies on one of the four edges. *)
Definition on_edge (lon_min lon_max lat_min lat_max : float) (row : Row) : Prop :=
  lon row = lon_min ∨ lon row = lon_max ∨ lat row = lat_min ∨ lat row = lat_max.

(** A stand-in for [great_circle] in the examples: metres on a flat grid of
    degrees (zero between coincident points and never negative). *)
Definition flat_distance (lon1 lon2 lat1 lat2 : float) : float :=
  ((abs (lon1 - lon2) + abs (lat1 - lat2)) * 111000)%float.

Definition example_box : list float := [(-10)%float; 20%float; 60%float; 80%float].

Definition at_lonlat (lo la : float) : Row :=
  {| time := {| year := 2001; month := 1; day := 15 |}; lon := lo; lat := la |}.

(** The two-dimensional field at position [(i, j)] of the result. *)
Definition slice (da : DataArray4) (i j : nat) : option grid :=
  slab ← stack_items (da_data da) !! i; stack_items slab !! j.

(** A field on a grid of [nlat] latitudes and [nlon] longitudes. *)
Definition grid_shape (nlat nlon : nat) (g : grid) : Prop :=
  length g = nlat ∧ Forall (λ row, length row = nlon) g.

(** The sizes of the four dimensions (subset, dens_type, latitude,
    longitude). *)
Definition has_sizes (da : DataArray4) (n_subset n_type nlat nlon : nat) : Prop :=
  length (stack_items (da_data da)) = n_subset
  ∧ Forall (λ slab : Stack grid,
              length (stack_items slab) = n_type
              ∧ Forall (grid_shape nlat nlon) (stack_items slab))
           (stack_items (da_data da)).

(** The labels along the subset axis and along the density-type axis. *)
Definition has_labels (da : DataArray4) (subsets density_types : list string) : Prop :=
  coord_data (stack_dim (da_data da)) = subsets
  ∧ Forall (λ slab : Stack grid, coord_data (stack_dim slab) = density_types)
           (stack_items (da_data da)).

(** A computation whose outcome does not depend on the calls logged before
    it, and which only appends to the log. *)
Definition log_parametric {A : Type} (m : M A) : Prop :=
  ∃ (r : result A) (calls : list call), ∀ log, m log = (r, log ++ calls).

(** A bound that is missing or false in Python's sense constrains nothing. *)
Definition drop_falsy (bound : option float) : option float :=
  match bound with
  | Some x => if py_bool x then Some x else None
  | None => None
  end.

Definition effective_conf (c : TrackSettings) : TrackSettings :=
  {| lon1 := drop_falsy (lon1 c); lon2 := drop_falsy (lon2 c);
     lat1 := drop_falsy (lat1 c); lat2 := drop_falsy (lat2 c) |}.

Definition with_conf (tr : TrackRun) (c : TrackSettings) : TrackRun :=
  {| gb := gb tr; is_categorised := is_categorised tr; cat_labels := cat_labels tr;
     conf := c; themask := themask tr |}.

(** The bound is configured with a value that Python takes as true. *)
Definition truthy (bound : option float) : bool :=
  match bound with Some x => py_bool x | None => false end.

(** Some bound is. *)
Definition bounded (c : TrackSettings) : bool :=
  truthy (lon1 c) || truthy (lon2 c) || truthy (lat1 c) || truthy (lat2 c).

(** The inner region: every configured bound holds at the cell. *)
Definition bound_holds (bound : option float) (cmp : float → float → bool)
    (v : float) : bool :=
  match drop_falsy bound with Some x => cmp v x | None => true end.

Definition in_inner_region (c : TrackSettings) (lo la : float) : bool :=
  bound_holds (lon1 c) ge lo && bound_holds (lon2 c) le lo
  && bound_holds (lat1 c) ge la && bound_holds (lat2 c) le la.

(** A field given cell by cell on the grid of [lons] and [lats]. *)
Definition mesh {A : Type} (f : float → float → A) (lons lats : list float)
  : list (list A) :=
  (λ la, (λ lo, f lo la) <$> lons) <$> lats.

(** The mask of the specification: 1.0 at the cells outside the inner
    region or with a land fraction of at least [lmask_thresh], 0.0
    elsewhere. *)
Definition combined_mask (c : TrackSettings) (lsm : LandSeaMask) (lmask_thresh : float)
  : grid :=
  zip2d (λ (outside : bool) l, if outside || ge l lmask_thresh then 1%float else 0%float)
        (mesh (λ lo la, negb (in_inner_region c lo la)) (longitude lsm) (latitude lsm))
        (values lsm).

(** Example masks: open sea on three latitudes and two longitudes, and on
    a single latitude. *)
Definition sea_3x2 : LandSeaMask :=
  {| longitude := [0%float; 1%float];
     latitude := [70%float; 71%float; 72%float];
     values := [[0%float; 0%float]; [0%float; 0%float]; [0%float; 0%float]] |}.

Definition sea_1x2 : LandSeaMask :=
  {| longitude := [0%float; 1%float];
     latitude := [70%float];
     values := [[0%float; 0%float]] |}.

Definition no_bounds : TrackSettings :=
  {| lon1 := None; lon2 := None; lat1 := None; lat2 := None |}.

(** [inner_idx] after some of the bounds were applied: still the constant
    [True] when none of them was true ([any = false]), else the array of
    the predicate [p] on the grid. *)
Definition idx_of (any : bool) (p : float → float → bool) (lons lats : list float)
  : inner_idx_t :=
  if any then BoolArray (mesh p lons lats) else PyTrue.

(** * Vocabulary for further properties *)

(** The track run with other tracks. *)
Definition with_gb (tr : TrackRun) (tracks : list (Z * OctantTrack)) : TrackRun :=
  {| gb := tracks; is_categorised := is_categorised tr; cat_labels := cat_labels tr;
     conf := conf tr; themask := themask tr |}.

(** The track has a point in calendar month [k + 1]. *)
Definition touches_month (g : Z * OctantTrack) (k : nat) : bool :=
  bool_decide (Z.of_nat k + 1 ∈ months_of g.2).

(** The track counts for winter [k]. *)
Definition touches_winter (start_year : Z) (g : Z * OctantTrack) (k : nat) : bool :=
  in_winter start_year (Z.of_nat k) g.2.

(** [counter.sum()] without overflow. *)
Definition np_sum (a : list Z) : Z := foldr Z.add 0 a.

(** The calendar months of every point are in 1..12. *)
Definition months_valid (tracks : list (Z * OctantTrack)) : Prop :=
  Forall (λ g : Z * OctantTrack, Forall (λ r, 1 ≤ month (time r) ≤ 12) g.2) tracks.

(** Every track has at least one point. *)
Definition tracks_nonempty (tracks : list (Z * OctantTrack)) : Prop :=
  Forall (λ g : Z * OctantTrack, g.2 ≠ []) tracks.

(** The cell in row [j] and column [i] of a two-dimensional array. *)
Definition cell {A : Type} (a : list (list A)) (j i : nat) : option A :=
  row ← a !! j; row !! i.

(** Lines 162 to 174 of [check_by_mask] on their own: the boundary mask
    after [boundary_mask[~inner_idx] = 1.0], or the exception of that
    assignment. *)
Definition boundary_mask_of (c : TrackSettings) (lsm : LandSeaMask) : result grid :=
  let '(lon2d, lat2d) := np_meshgrid (longitude lsm) (latitude lsm) in
  assign_outside
    (apply_bound (lat2 c) le lat2d
       (apply_bound (lat1 c) ge lat2d
          (apply_bound (lon2 c) le lon2d
             (apply_bound (lon1 c) ge lon2d PyTrue))))
    (map2d (λ _, 0%float) lon2d).

(** Line 175: the stored mask from the boundary mask and the land mask. *)
Definition themask_of (boundary_mask : grid) (lsm : LandSeaMask) (lmask_thresh : float)
  : grid :=
  zip2d (λ b l, bool_times (PrimFloat.eqb b 1 || ge l lmask_thresh) 1)
        boundary_mask (values lsm).

(** The land-sea mask has one row per latitude and one column per
    longitude. *)
Definition lsm_shape (lsm : LandSeaMask) : Prop :=
  grid_shape (length (latitude lsm)) (length (longitude lsm)) (values lsm).

(** Some configured bound fails at the cell. *)
Definition outside (c : TrackSettings) (lo la : float) : bool :=
  negb (in_inner_region c lo la).

(** Example data: a mask with one land cell, a configuration with a western
    bound at 0.5 degrees and a stand-in for [mask_tracks]. *)
Definition coast_3x2 : LandSeaMask :=
  {| longitude := [0%float; 1%float];
     latitude := [70%float; 71%float; 72%float];
     values := [[0%float; 0%float]; [0%float; 1%float]; [0%float; 0%float]] |}.

Definition west_bound : TrackSettings :=
  {| lon1 := Some 0.5%float; lon2 := None; lat1 := None; lat2 := None |}.

Definition quarter_masked (m lon2d lat2d : grid) (lonlat : list (float * float))
    (rad : float) : float := 0.25%float.

(** Example data: a categorised run, and a density that fails for the
    subset "broken" by "genesis" and gives a 1 x 2 field otherwise. *)
Definition categorised_run : TrackRun :=
  {| gb := gb example_run; is_categorised := true; cat_labels := ["weak"; "strong"];
     conf := conf example_run; themask := None |}.

Definition example_density (tr : TrackRun) (lon2d lat2d : grid) (by_ subset : string)
    (kw : unit) : result grid :=
  if bool_decide (subset = "broken" ∧ by_ = "genesis") then Raise ValueError
  else Ok [[1%float; 2%float]].

(** * Proofs *)

(** * Facts about the Python and numpy primitives *)

Lemma wrap_int64_small z : - 2 ^ 63 ≤ z < 2 ^ 63 → wrap_int64 z = z.
Proof.
  intros Hz. unfold wrap_int64.
  rewrite Z.mod_small by lia. lia.
Qed.

Lemma wrap_int64_succ a : wrap_int64 (wrap_int64 a + 1) = wrap_int64 (a + 1).
Proof.
  unfold wrap_int64. f_equal.
  replace ((a + 2 ^ 63) `mod` 2 ^ 64 - 2 ^ 63 + 1 + 2 ^ 63)
    with ((a + 2 ^ 63) `mod` 2 ^ 64 + 1) by lia.
  rewrite Zplus_mod_idemp_l. f_equal. lia.
Qed.

Lemma for_each_ext {A S : Type} (f g : S → A → result S) xs :
  (∀ s x, x ∈ xs → f s x = g s x) → ∀ s, for_each f s xs = for_each g s xs.
Proof.
  induction xs as [|x xs IH]; intros Hfg s; simpl; [done|].
  rewrite Hfg by left. destruct (g s x) as [s'|e]; simpl; [|done].
  apply IH. intros s0 y Hy. apply Hfg. by right.
Qed.

Lemma elem_of_unique x l : x ∈ unique l ↔ x ∈ l.
Proof.
  induction l as [|y l IH]; simpl; [done|].
  rewrite !elem_of_cons, list_elem_of_filter, IH.
  destruct (decide (x = y)); tauto.
Qed.

Lemma NoDup_unique l : NoDup (unique l).
Proof.
  induction l as [|y l IH]; simpl; constructor.
  - rewrite list_elem_of_filter. by intros [Hy _].
  - by apply NoDup_filter.
Qed.

Lemma head_unique l : head (unique l) = head l.
Proof. by destruct l. Qed.

Lemma unique_nil l : unique l = [] → l = [].
Proof. by destruct l. Qed.

Lemma np_index_nonneg n i :
  0 ≤ i < Z.of_nat n → np_index n i = Ok (Z.to_nat i).
Proof.
  intros Hi. unfold np_index.
  destruct (Z.leb_spec 0 i), (Z.ltb_spec i (Z.of_nat n)); simpl; done || lia.
Qed.

Lemma np_getitem_first {A} (l : list A) x :
  head l = Some x → np_getitem l 0 = Ok x.
Proof.
  destruct l as [|y l]; intros [= ->].
  unfold np_getitem. rewrite np_index_nonneg by (simpl; lia). done.
Qed.

Lemma np_getitem_last {A} (l : list A) x :
  last l = Some x → np_getitem l (-1) = Ok x.
Proof.
  intros Hl. unfold np_getitem, np_index.
  assert (length l ≠ 0%nat) by (destruct l; done).
  replace ((0 <=? -1) && (-1 <? Z.of_nat (length l))) with false by done.
  destruct (Z.leb_spec (- Z.of_nat (length l)) (-1)); [simpl|lia].
  rewrite last_lookup in Hl.
  replace (Z.to_nat (Z.of_nat (length l) + -1)) with (pred (length l)) by lia.
  by rewrite Hl.
Qed.

Lemma np_incr_nonneg c i :
  0 ≤ i < Z.of_nat (length c) →
  np_incr c i = Ok (alter (λ v, wrap_int64 (v + 1)) (Z.to_nat i) c).
Proof. intros Hi. unfold np_incr. by rewrite np_index_nonneg. Qed.

(** * Counting loops *)

(** A loop whose body bumps bucket [idx x] when [hit x] holds, over items
    with pairwise distinct buckets, bumps each selected bucket once. *)
Lemma for_each_incr (hit : Z → bool) (idx : Z → Z) (xs : list Z) :
  ∀ c : list Z,
  NoDup (idx <$> xs) →
  (∀ x, x ∈ xs → 0 ≤ idx x < Z.of_nat (length c)) →
  ∃ c', for_each (λ c x, if hit x then np_incr c (idx x) else Ok c) c xs = Ok c'
        ∧ length c' = length c
        ∧ ∀ (k : nat) v, c !! k = Some v →
            ((∃ x, x ∈ xs ∧ hit x = true ∧ idx x = Z.of_nat k) →
               c' !! k = Some (wrap_int64 (v + 1)))
            ∧ ((¬ ∃ x, x ∈ xs ∧ hit x = true ∧ idx x = Z.of_nat k) →
               c' !! k = Some v).
Proof.
  induction xs as [|x xs IH]; intros c Hnd Hin; simpl.
  { exists c. split; [done|]. split; [done|]. intros k v Hk. split; [|done].
    intros (y & Hy & _). by apply elem_of_nil in Hy. }
  rewrite fmap_cons in Hnd. apply NoDup_cons in Hnd as [Hx Hnd].
  assert (Hix : 0 ≤ idx x < Z.of_nat (length c)) by (apply Hin; left).
  destruct (hit x) eqn:Hhit.
  - rewrite np_incr_nonneg by done. simpl.
    set (c1 := alter (λ v, wrap_int64 (v + 1)) (Z.to_nat (idx x)) c).
    assert (Hlen : length c1 = length c) by apply length_alter.
    destruct (IH c1 Hnd) as (c' & Hrun & Hlen' & Hlook).
    { intros y Hy. rewrite Hlen. apply Hin. by right. }
    exists c'. split; [done|]. split; [congruence|].
    intros k v Hk. destruct (decide (idx x = Z.of_nat k)) as [Heq|Hne].
    + assert (Hk1 : c1 !! k = Some (wrap_int64 (v + 1))).
      { unfold c1. rewrite Heq, Nat2Z.id, list_lookup_alter_eq, Hk. done. }
      destruct (Hlook k _ Hk1) as [_ Hkeep].
      split; [intros _|intros []; exists x; split; [left|done]].
      apply Hkeep. intros (y & Hy & _ & Hiy). apply Hx.
      apply list_elem_of_fmap. exists y. split; [congruence|done].
    + assert (Hk1 : c1 !! k = Some v).
      { unfold c1. rewrite list_lookup_alter_ne by lia. done. }
      destruct (Hlook k _ Hk1) as [Hbump Hkeep]. split.
      * intros (y & Hy & Hhy & Hiy). apply Hbump.
        apply elem_of_cons in Hy as [->|Hy]; [done|]. by exists y.
      * intros Hno. apply Hkeep. intros (y & Hy & Hhy & Hiy).
        apply Hno. exists y. split; [by right|done].
  - destruct (IH c Hnd) as (c' & Hrun & Hlen' & Hlook).
    { intros y Hy. apply Hin. by right. }
    exists c'. split; [done|]. split; [done|].
    intros k v Hk. destruct (Hlook k v Hk) as [Hbump Hkeep]. split.
    + intros (y & Hy & Hhy & Hiy). apply Hbump.
      apply elem_of_cons in Hy as [->|Hy]; [congruence|]. by exists y.
    + intros Hno. apply Hkeep. intros (y & Hy & Hhy & Hiy).
      apply Hno. exists y. split; [by right|done].
Qed.

(** The loop over the tracks: when each track bumps exactly the buckets
    it touches, every bucket ends up with its tally (as a 64-bit number). *)
Lemma for_each_tally {G : Type} (body : list Z → G → result (list Z))
    (touch : G → nat → bool) (n : nat) (gs : list G) :
  (∀ g c, g ∈ gs → length c = n →
     ∃ c', body c g = Ok c' ∧ length c' = n
           ∧ ∀ (k : nat) v, c !! k = Some v →
               c' !! k = Some (if touch g k then wrap_int64 (v + 1) else v)) →
  ∀ c, length c = n →
  ∃ c', for_each body c gs = Ok c' ∧ length c' = n
        ∧ ∀ (k : nat) a, c !! k = Some (wrap_int64 a) →
            c' !! k = Some (wrap_int64 (a + Z.of_nat (tally touch k gs))).
Proof.
  induction gs as [|g gs IH]; intros Hbody c Hc; simpl.
  { exists c. split; [done|]. split; [done|]. intros k a Hk.
    unfold tally. simpl. by rewrite Z.add_0_r. }
  destruct (Hbody g c) as (c1 & -> & Hc1 & Hstep); [left|done|]. simpl.
  destruct (IH (λ g' c' Hg', Hbody g' c' (list_elem_of_further _ _ _ Hg')) c1 Hc1)
    as (c' & Hrun & Hlen & Hlook).
  exists c'. split; [done|]. split; [done|].
  intros k a Hk. specialize (Hstep k _ Hk).
  unfold tally. rewrite filter_cons. destruct (touch g k) eqn:Ht.
  - rewrite wrap_int64_succ in Hstep. rewrite (Hlook k _ Hstep).
    rewrite decide_True by done. simpl length. do 2 f_equal. unfold tally. lia.
  - rewrite (Hlook k _ Hstep). rewrite decide_False by done. done.
Qed.

(** * [bin_count_tracks] *)

Lemma upper_eq_M by_ : upper by_ = "M" ↔ by_ = "M" ∨ by_ = "m".
Proof.
  split; [|by intros [->| ->]].
  destruct by_ as [|a [|b s]]; [done| |done].
  destruct a as [[] [] [] [] [] [] [] []]; intros H; vm_compute in H;
    first [discriminate H | by left | by right].
Qed.

Lemma upper_eq_W by_ : upper by_ = "W" ↔ by_ = "W" ∨ by_ = "w".
Proof.
  split; [|by intros [->| ->]].
  destruct by_ as [|a [|b s]]; [done| |done].
  destruct a as [[] [] [] [] [] [] [] []]; intros H; vm_compute in H;
    first [discriminate H | by left | by right].
Qed.

Lemma month_track_step (df : OctantTrack) (c : list Z) :
  Forall (λ r, 1 ≤ month (time r) ≤ 12) df →
  length c = 12%nat →
  ∃ c', for_each month_body c (track_months df) = Ok c' ∧ length c' = 12%nat
        ∧ ∀ (k : nat) v, c !! k = Some v →
            c' !! k = Some (if bool_decide (Z.of_nat k + 1 ∈ months_of df)
                            then wrap_int64 (v + 1) else v).
Proof.
  intros Hvalid Hc.
  destruct (for_each_incr (λ _, true) (λ m, m - 1) (track_months df) c)
    as (c' & Hrun & Hlen & Hlook).
  { apply NoDup_fmap_2; [intros x y; lia|apply NoDup_unique]. }
  { intros m Hm. apply elem_of_unique, list_elem_of_fmap in Hm as (r & -> & Hr).
    rewrite Forall_forall in Hvalid. specialize (Hvalid r Hr). lia. }
  exists c'. split; [exact Hrun|]. split; [congruence|].
  intros k v Hk. destruct (Hlook k v Hk) as [Hbump Hkeep].
  case_bool_decide as Hm.
  - apply Hbump. exists (Z.of_nat k + 1). split; [by apply elem_of_unique|].
    split; [done|lia].
  - apply Hkeep. intros (m & Hm' & _ & Hmk). apply Hm.
    unfold track_months in Hm'. rewrite elem_of_unique in Hm'.
    by replace (Z.of_nat k + 1) with m by lia.
Qed.

Lemma winter_track_step (start_year n_winters : Z) (df : OctantTrack) (c : list Z) :
  df ≠ [] →
  Z.of_nat (length c) = n_winters →
  ∃ c', for_each (winter_body (track_months df) (track_years df) start_year)
                 c (py_range n_winters) = Ok c'
        ∧ length c' = length c
        ∧ ∀ (k : nat) v, c !! k = Some v →
            c' !! k = Some (if in_winter start_year (Z.of_nat k) df
                            then wrap_int64 (v + 1) else v).
Proof.
  intros Hdf Hc.
  assert (Hne : ∀ f : Row → Z, unique (f <$> df) ≠ []).
  { intros f Hnil. apply unique_nil, fmap_nil_inv in Hnil. done. }
  destruct (last (track_months df)) as [m|] eqn:Hm;
    [|by apply last_None, Hne in Hm].
  destruct (last (track_years df)) as [yl|] eqn:Hyl;
    [|by apply last_None, Hne in Hyl].
  destruct (head (track_years df)) as [y0|] eqn:Hy0;
    [|by apply head_None, Hne in Hy0].
  set (hit := λ i : Z, if m <=? 6 then y0 =? i + start_year + 1
                       else yl =? i + start_year).
  rewrite (for_each_ext _ (λ c x, if hit x then np_incr c (id x) else Ok c)).
  2:{ intros s x _. unfold winter_body, hit.
      rewrite (np_getitem_last _ _ Hm). unfold mbind at 1, result_bind at 1.
      destruct (m <=? 6).
      - by rewrite (np_getitem_first _ _ Hy0).
      - by rewrite (np_getitem_last _ _ Hyl). }
  destruct (for_each_incr hit id (py_range n_winters) c)
    as (c' & Hrun & Hlen & Hlook).
  { rewrite list_fmap_id. apply NoDup_seqZ. }
  { intros x Hx. apply elem_of_seqZ in Hx. unfold id. lia. }
  exists c'. split; [exact Hrun|]. split; [done|].
  intros k v Hk. destruct (Hlook k v Hk) as [Hbump Hkeep].
  assert (Hin : in_winter start_year (Z.of_nat k) df = hit (Z.of_nat k)).
  { unfold in_winter, last_month, first_year, last_year, hit.
    change (unique (months_of df)) with (track_months df).
    change (unique (years_of df)) with (track_years df).
    rewrite Hm, Hyl. unfold years_of. rewrite <- head_unique.
    change (unique _) with (track_years df). rewrite Hy0.
    case_bool_decide; [rewrite (Zle_imp_le_bool _ _ H)|
                       rewrite (proj2 (Z.leb_gt _ _)) by lia];
      case_bool_decide; symmetry; (by apply Z.eqb_eq; lia) || (by apply Z.eqb_neq; lia). }
  rewrite Hin. destruct (hit (Z.of_nat k)) eqn:Hhit.
  - apply Hbump. exists (Z.of_nat k). split; [|done].
    apply elem_of_seqZ. apply lookup_lt_Some in Hk. lia.
  - apply Hkeep. intros (x & _ & Hx & Hxk). unfold id in Hxk. congruence.
Qed.

(** ** The last month and year of a track

    [track_months[-1]] is the last entry of the de-duplicated month
    sequence.  For a track whose final month does not occur earlier on
    (any track in time order that is shorter than a year) this is the month
    of the last point; likewise for the year. *)

Lemma filter_none (P : Z → Prop) `{!∀ x, Decision (P x)} (l : list Z) :
  (∀ y, y ∈ l → ¬ P y) → filter P l = [].
Proof.
  induction l as [|y l IH]; intros Hl; [done|].
  rewrite filter_cons, decide_False by (apply Hl; left).
  apply IH. intros z Hz. apply Hl. by right.
Qed.

Lemma last_filter (P : Z → Prop) `{!∀ x, Decision (P x)} (l : list Z) x :
  last l = Some x → P x → last (filter P l) = Some x.
Proof.
  intros Hl Hx. induction l as [|y l IH]; [done|].
  rewrite last_cons in Hl. rewrite filter_cons.
  destruct (last l) as [z|] eqn:Hz.
  - injection Hl as ->. specialize (IH eq_refl).
    destruct (decide (P y)); [|done]. by rewrite last_cons, IH.
  - injection Hl as ->. apply last_None in Hz as ->.
    by rewrite decide_True.
Qed.

Lemma last_unique_final_run (l1 l2 : list Z) x :
  x ∉ l1 → l2 ≠ [] → Forall (λ y, y = x) l2 → last (unique (l1 ++ l2)) = Some x.
Proof.
  intros Hx Hne Hall. induction l1 as [|a l1 IH]; simpl.
  - destruct l2 as [|y l2]; [done|]. apply Forall_cons in Hall as [-> Hall].
    simpl. rewrite filter_none; [done|].
    intros z Hz Hzx. rewrite elem_of_unique in Hz.
    rewrite Forall_forall in Hall. by apply Hzx, Hall.
  - apply not_elem_of_cons in Hx as [Hxa Hx].
    rewrite last_cons, (last_filter _ _ x); [done|by apply IH|done].
Qed.

Lemma last_month_final_run (df1 df2 : OctantTrack) m :
  df2 ≠ [] →
  Forall (λ r, month (time r) = m) df2 →
  Forall (λ r, month (time r) ≠ m) df1 →
  last_month (df1 ++ df2) = Some m.
Proof.
  intros Hne H2 H1. unfold last_month, months_of. rewrite fmap_app.
  apply last_unique_final_run.
  - intros (r & Hm & Hr)%list_elem_of_fmap. rewrite Forall_forall in H1.
    by apply (H1 r Hr).
  - by destruct df2.
  - by apply Forall_fmap.
Qed.

Lemma last_year_final_run (df1 df2 : OctantTrack) y :
  df2 ≠ [] →
  Forall (λ r, year (time r) = y) df2 →
  Forall (λ r, year (time r) ≠ y) df1 →
  last_year (df1 ++ df2) = Some y.
Proof.
  intros Hne H2 H1. unfold last_year, years_of. rewrite fmap_app.
  apply last_unique_final_run.
  - intros (r & Hm & Hr)%list_elem_of_fmap. rewrite Forall_forall in H1.
    by apply (H1 r Hr).
  - by destruct df2.
  - by apply Forall_fmap.
Qed.

Lemma first_year_head (r : Row) (df : OctantTrack) :
  first_year (r :: df) = Some (year (time r)).
Proof. reflexivity. Qed.

(** A track that comes back to a month it has left: the last month it
    enters (January) is not the month of its last point. *)
Example last_month_returning_track :
  last_month [point 2000 11 30; point 2000 12 1; point 2001 1 1; point 2001 11 1]
  = Some 1.
Proof. reflexivity. Qed.

Lemma result_bind_Ok {A B : Type} (a : A) (f : A → result B) : (Ok a ≫= f) = f a.
Proof. reflexivity. Qed.

Lemma np_zeros_nonneg n : 0 ≤ n → np_zeros n = Ok (replicate (Z.to_nat n) 0).
Proof. intros Hn. unfold np_zeros. by rewrite (proj2 (Z.ltb_ge n 0)). Qed.

Lemma tally_le {G : Type} (touch : G → nat → bool) k gs :
  (tally touch k gs ≤ length gs)%nat.
Proof. apply length_filter. Qed.

(** C5: with [by="M"] (in either case) the result is a 12-element array
    whose bucket [m - 1] holds the number of tracks that touch calendar
    month [m]: each track adds exactly one to the bucket of every distinct
    month it has a point in, however many points fall in that month. *)
Theorem bin_count_tracks_by_month (tr_obj : TrackRun) (start_year n_winters : Z)
    (by_ : string) :
  upper by_ = "M" →
  Forall (λ g : Z * OctantTrack, Forall (λ r, 1 ≤ month (time r) ≤ 12) g.2)
         (gb tr_obj) →
  Z.of_nat (length (gb tr_obj)) < 2 ^ 63 →
  ∃ counter,
    bin_count_tracks tr_obj start_year n_winters by_ = Ok counter
    ∧ length counter = 12%nat
    ∧ ∀ m, 1 ≤ m ≤ 12 →
        counter !! Z.to_nat (m - 1)
        = Some (Z.of_nat (length (filter (λ g : Z * OctantTrack, m ∈ months_of g.2)
                                         (gb tr_obj)))).
Proof.
  intros Hby Hvalid Hsize. unfold bin_count_tracks.
  rewrite (bool_decide_eq_true_2 _ Hby).
  rewrite bool_decide_eq_false_2 by (rewrite Hby; discriminate).
  rewrite np_zeros_nonneg by lia.
  set (touch := λ (g : Z * OctantTrack) (k : nat),
                  bool_decide (Z.of_nat k + 1 ∈ months_of g.2)).
  destruct (for_each_tally
              (λ c (g : Z * OctantTrack), for_each month_body c (track_months g.2))
              touch 12 (gb tr_obj)) with (c := replicate (Z.to_nat 12) 0)
    as (c' & Hrun & Hlen & Hlook).
  { intros g c Hg Hc. apply month_track_step; [|done].
    rewrite Forall_forall in Hvalid. by apply Hvalid. }
  { by rewrite length_replicate. }
  rewrite result_bind_Ok, Hrun, !result_bind_Ok.
  exists c'. split; [done|]. split; [done|].
  intros m Hm.
  rewrite (Hlook (Z.to_nat (m - 1)) 0).
  2:{ apply lookup_replicate_2. lia. }
  pose proof (tally_le touch (Z.to_nat (m - 1)) (gb tr_obj)).
  rewrite wrap_int64_small by lia. rewrite Z.add_0_l. do 2 f_equal.
  unfold tally. f_equal. apply list_filter_iff. intros g. unfold touch.
  rewrite bool_decide_eq_true. by replace (Z.of_nat (Z.to_nat (m - 1)) + 1) with m by lia.
Qed.

Lemma bin_count_tracks_by_month_witness :
  ∃ counter,
    bin_count_tracks example_run 2000 3 "M" = Ok counter
    ∧ length counter = 12%nat
    ∧ ∀ m, 1 ≤ m ≤ 12 →
        counter !! Z.to_nat (m - 1)
        = Some (Z.of_nat (length (filter (λ g : Z * OctantTrack, m ∈ months_of g.2)
                                         (gb example_run)))).
Proof.
  apply (bin_count_tracks_by_month example_run 2000 3 "M").
  - reflexivity.
  - repeat constructor; simpl; lia.
  - reflexivity.
Defined.



(** The two examples of the specification, evaluated. *)
Example bin_count_tracks_month_example :
  bin_count_tracks example_run 2000 3 "M" = Ok [1; 0; 1; 1; 0; 0; 0; 0; 0; 0; 0; 2].
Proof. reflexivity. Qed.

Example bin_count_tracks_winter_example :
  bin_count_tracks example_run 2000 3 "W" = Ok [1; 0; 1].
Proof. reflexivity. Qed.

(** C7: a flag whose upper case is neither ["M"] nor ["W"] binds no counter:
    the function returns no array and fails at [return counter] with
    [UnboundLocalError], not with an argument error. *)
Theorem bin_count_tracks_unknown_flag (tr_obj : TrackRun) (start_year n_winters : Z)
    (by_ : string) :
  upper by_ ≠ "M" →
  upper by_ ≠ "W" →
  bin_count_tracks tr_obj start_year n_winters by_ = Raise UnboundLocalError
  ∧ (∀ counter, bin_count_tracks tr_obj start_year n_winters by_ ≠ Ok counter)
  ∧ bin_count_tracks tr_obj start_year n_winters by_ ≠ Raise ArgumentError.
Proof.
  intros HM HW.
  assert (H : bin_count_tracks tr_obj start_year n_winters by_ = Raise UnboundLocalError).
  { unfold bin_count_tracks. by rewrite !bool_decide_eq_false_2. }
  rewrite H. done.
Qed.

Lemma bin_count_tracks_unknown_flag_witness :
  bin_count_tracks example_run 2000 3 "Y" = Raise UnboundLocalError
  ∧ (∀ counter, bin_count_tracks example_run 2000 3 "Y" ≠ Ok counter)
  ∧ bin_count_tracks example_run 2000 3 "Y" ≠ Raise ArgumentError.
Proof.
  apply (bin_count_tracks_unknown_flag example_run 2000 3 "Y"); discriminate.
Defined.

(** * [check_far_from_boundaries] *)

Lemma leb_zero_not_ltb (d : float) :
  PrimFloat.leb 0 d = true → PrimFloat.ltb d 0 = false.
Proof.
  rewrite leb_spec, ltb_spec.
  change (Prim2SF 0) with (S754_zero false).
  destruct (Prim2SF d) as [[]|[]| |[] m e]; cbv; congruence.
Qed.

Lemma ltb_irrefl (d : float) : PrimFloat.ltb d d = false.
Proof.
  rewrite ltb_spec. unfold SFltb.
  destruct (Prim2SF d) as [[]|[]| |[] m e]; simpl; try done.
  - by rewrite Z.compare_refl, Pos.compare_cont_refl.
  - by rewrite Z.compare_refl, Pos.compare_cont_refl.
Qed.

Section far_from_boundaries_facts.
Variable great_circle : float → float → float → float → float.

Lemma _func_edge_distance (i : nat) ll row :
  (i < 4)%nat → _func great_circle i ll row = Ok (edge_distance great_circle i ll row).
Proof.
  intros Hi. destruct i as [|[|[|[|i]]]]; [reflexivity..|lia].
Qed.

Lemma mapM_func (i : nat) ll (ot : OctantTrack) :
  (i < 4)%nat →
  mapM (_func great_circle i ll) ot = Ok (edge_distance great_circle i ll <$> ot).
Proof.
  intros Hi. induction ot as [|row ot IH]; [done|].
  simpl. rewrite _func_edge_distance by done. rewrite result_bind_Ok, IH. done.
Qed.

Lemma check_far_from_boundaries_eval ot lon_min lon_max lat_min lat_max dist :
  check_far_from_boundaries great_circle ot [lon_min; lon_max; lat_min; lat_max] dist
  = Ok (forallb (in_box lon_min lon_max lat_min lat_max) ot
        && all_far great_circle ot [lon_min; lon_max; lat_min; lat_max] dist).
Proof.
  unfold check_far_from_boundaries.
  change (np_getitem [lon_min; lon_max; lat_min; lat_max] 0) with (Ok lon_min).
  change (np_getitem [lon_min; lon_max; lat_min; lat_max] 1) with (Ok lon_max).
  change (np_getitem [lon_min; lon_max; lat_min; lat_max] 2) with (Ok lat_min).
  change (np_getitem [lon_min; lon_max; lat_min; lat_max] 3) with (Ok lat_max).
  rewrite !result_bind_Ok.
  unfold all_far.
  change (imap _ [lon_min; lon_max; lat_min; lat_max])
    with [(0%nat, lon_min); (1%nat, lon_max); (2%nat, lat_min); (3%nat, lat_max)].
  destruct (forallb _ ot); [|done].
  cbn [negb for_each forallb fst snd].
  rewrite !mapM_func, !result_bind_Ok by lia.
  by rewrite andb_true_r, !andb_assoc.
Qed.

(** What the two boolean checks say. *)
Lemma forallb_in_box ot lon_min lon_max lat_min lat_max :
  forallb (in_box lon_min lon_max lat_min lat_max) ot = true
  ↔ ∀ row, row ∈ ot → inside_box lon_min lon_max lat_min lat_max row.
Proof.
  rewrite <- Is_true_true, forallb_True, Forall_forall.
  apply forall_proper; intros row. apply forall_proper; intros _.
  unfold in_box, inside_box, ge, le.
  rewrite !andb_True, !Is_true_true. tauto.
Qed.

Lemma all_far_farther_than ot box dist :
  all_far great_circle ot box dist = true
  ↔ ∀ row, row ∈ ot → farther_than great_circle dist box row.
Proof.
  unfold all_far, farther_than.
  rewrite <- Is_true_true, forallb_True, Forall_forall. split.
  - intros H row Hrow i ll Hi.
    specialize (H (i, ll)). rewrite forallb_True, Forall_forall in H.
    apply Is_true_true, (H (proj2 (elem_of_lookup_imap _ _ _) (ex_intro _ i (ex_intro _ ll (conj eq_refl Hi))))).
    apply list_elem_of_fmap. by exists row.
  - intros H [i ll] Hi. apply elem_of_lookup_imap in Hi as (i' & ll' & [= -> ->] & Hi).
    rewrite forallb_True, Forall_forall. intros d Hd.
    apply list_elem_of_fmap in Hd as (row & -> & Hrow).
    apply Is_true_true. by apply H.
Qed.

(** One point that is not strictly farther than [dist] from one edge, for
    instance at exactly that distance, makes the result false. *)
Lemma check_far_from_boundaries_too_close ot lon_min lon_max lat_min lat_max dist
    row (i : nat) ll :
  row ∈ ot →
  [lon_min; lon_max; lat_min; lat_max] !! i = Some ll →
  PrimFloat.ltb dist (edge_distance great_circle i ll row) = false →
  check_far_from_boundaries great_circle ot [lon_min; lon_max; lat_min; lat_max] dist
  = Ok false.
Proof.
  intros Hrow Hi Hd. rewrite check_far_from_boundaries_eval. f_equal.
  apply not_true_is_false. rewrite andb_true_iff, all_far_farther_than.
  intros [_ Hfar]. specialize (Hfar row Hrow i ll Hi). congruence.
Qed.

Lemma check_far_from_boundaries_at_dist ot lon_min lon_max lat_min lat_max
    row (i : nat) ll :
  row ∈ ot →
  [lon_min; lon_max; lat_min; lat_max] !! i = Some ll →
  check_far_from_boundaries great_circle ot [lon_min; lon_max; lat_min; lat_max]
    (edge_distance great_circle i ll row)
  = Ok false.
Proof.
  intros Hrow Hi. eapply check_far_from_boundaries_too_close; [done..|].
  apply ltb_irrefl.
Qed.
End far_from_boundaries_facts.

(** C2 (amended): on a box of four entries the check succeeds, and it
    returns true exactly when every point lies in the closed box and every
    point is strictly farther than [dist] from each of the four edges.  A
    point on an edge (at distance zero from it) makes the result false
    whenever [dist] is not negative; a track inside the box whose points
    are all strictly farther than [dist] from every edge gives true. *)
Theorem check_far_from_boundaries_correct
    (great_circle : float → float → float → float → float)
    (ot : OctantTrack) (lon_min lon_max lat_min lat_max dist : float) :
  ∃ b : bool,
    check_far_from_boundaries great_circle ot [lon_min; lon_max; lat_min; lat_max] dist
    = Ok b
    ∧ (b = true ↔
         (∀ row, row ∈ ot → inside_box lon_min lon_max lat_min lat_max row)
         ∧ (∀ row, row ∈ ot →
              farther_than great_circle dist [lon_min; lon_max; lat_min; lat_max] row))
    ∧ (∀ row, row ∈ ot →
         on_edge lon_min lon_max lat_min lat_max row →
         great_circle (lon row) (lon row) (lat row) (lat row) = 0%float →
         PrimFloat.leb 0 dist = true →
         b = false)
    ∧ ((∀ row, row ∈ ot → inside_box lon_min lon_max lat_min lat_max row) →
       (∀ row, row ∈ ot →
          farther_than great_circle dist [lon_min; lon_max; lat_min; lat_max] row) →
       b = true).
Proof.
  eexists. split; [apply check_far_from_boundaries_eval|].
  assert (Hiff : ∀ b1 b2 : bool, b1 && b2 = true ↔ b1 = true ∧ b2 = true)
    by (intros b1 b2; apply andb_true_iff).
  split; [|split].
  - by rewrite Hiff, forallb_in_box, all_far_farther_than.
  - intros row Hrow Hedge Hzero Hdist.
    apply not_true_is_false. rewrite Hiff, all_far_farther_than.
    intros [_ Hfar]. specialize (Hfar row Hrow).
    apply leb_zero_not_ltb in Hdist.
    assert (Hex : ∃ (i : nat) ll, [lon_min; lon_max; lat_min; lat_max] !! i = Some ll
                         ∧ edge_distance great_circle i ll row = 0%float).
    { destruct Hedge as [H|[H|[H|H]]].
      - exists 0%nat, lon_min. by rewrite <- H.
      - exists 1%nat, lon_max. by rewrite <- H.
      - exists 2%nat, lat_min. by rewrite <- H.
      - exists 3%nat, lat_max. by rewrite <- H. }
    destruct Hex as (i & ll & Hi & Hd). specialize (Hfar i ll Hi).
    rewrite Hd in Hfar. congruence.
  - intros Hin Hfar. by rewrite Hiff, forallb_in_box, all_far_farther_than.
Qed.

(** The examples of the specification on the box [[-10, 20, 60, 80]]. *)
Example check_far_from_boundaries_inside :
  check_far_from_boundaries flat_distance [at_lonlat 5 70; at_lonlat 6 71]
    example_box 250000 = Ok true.
Proof. reflexivity. Qed.

Example check_far_from_boundaries_on_edge :
  check_far_from_boundaries flat_distance [at_lonlat 5 70; at_lonlat (-10) 70]
    example_box 250000 = Ok false.
Proof. reflexivity. Qed.

(** C2, as stated, fails in its last clause, because the comparison with
    [dist] is strict.  With [dist = 0] the point (-10, 70) lies in the box
    and is at least [dist] away from every edge (it is on the first edge,
    at distance 0), yet the result is false.  With a negative [dist] the
    same point on the edge gives true. *)
Lemma check_far_from_boundaries_at_least_dist :
  (forallb (in_box (-10) 20 60 80) [at_lonlat (-10) 70] = true
   ∧ at_least_dist flat_distance 0 example_box (at_lonlat (-10) 70) = true
   ∧ edge_distance flat_distance 0 (-10) (at_lonlat (-10) 70) = 0%float
   ∧ check_far_from_boundaries flat_distance [at_lonlat (-10) 70] example_box 0
     = Ok false)
  ∧ check_far_from_boundaries flat_distance [at_lonlat (-10) 70] example_box (-1)
    = Ok true.
Proof. repeat split; reflexivity. Qed.

(** * [calc_all_dens] *)

Lemma xr_concat_Ok {A : Type} (objs : list A) (dim : Coord) :
  objs ≠ [] → length (coord_data dim) = length objs →
  xr_concat objs dim = Ok {| stack_dim := dim; stack_items := objs |}.
Proof.
  intros Hne Hlen. destruct objs; [done|]. unfold xr_concat.
  by rewrite bool_decide_eq_true_2.
Qed.

Lemma for_append_Ok {A B : Type} (body : A → M B) (g : A → B)
    (calls : A → list call) (xs : list A) :
  (∀ x, x ∈ xs → ∀ log, body x log = (Ok (g x), log ++ calls x)) →
  ∀ acc log,
    for_append body acc xs log = (Ok (acc ++ (g <$> xs)), log ++ (xs ≫= calls)).
Proof.
  induction xs as [|x xs IH]; intros Hbody acc log; simpl.
  { unfold ret. by rewrite !app_nil_r. }
  unfold bind. rewrite Hbody by left.
  rewrite IH by (intros y Hy; apply Hbody; by right).
  by rewrite <- !app_assoc.
Qed.

Section log_parametric.
Context {A B : Type}.

Lemma log_parametric_ret (a : A) : log_parametric (ret a).
Proof. exists (Ok a), []. intros log. unfold ret. by rewrite app_nil_r. Qed.

Lemma log_parametric_raise (e : exn) : log_parametric (@raise A e).
Proof. exists (Raise e), []. intros log. unfold raise. by rewrite app_nil_r. Qed.

Lemma log_parametric_lift (r : result A) : log_parametric (lift r).
Proof. exists r, []. intros log. unfold lift. by rewrite app_nil_r. Qed.

Lemma log_parametric_bind (m : M A) (k : A → M B) :
  log_parametric m → (∀ a, log_parametric (k a)) → log_parametric (bind m k).
Proof.
  intros (r & t & Hm) Hk. destruct r as [a|e].
  - destruct (Hk a) as (r' & t' & Hka). exists r', (t ++ t').
    intros log. unfold bind. by rewrite Hm, Hka, app_assoc.
  - exists (Raise e), t. intros log. unfold bind. by rewrite Hm.
Qed.
End log_parametric.

Lemma log_parametric_for_append {A B : Type} (body : A → M B) (xs : list A) :
  (∀ x, log_parametric (body x)) → ∀ acc, log_parametric (for_append body acc xs).
Proof.
  intros Hbody. induction xs as [|x xs IH]; intros acc; simpl.
  - apply log_parametric_ret.
  - apply log_parametric_bind; [apply Hbody|]. intros b. apply IH.
Qed.

Lemma log_parametric_calc_all_dens {kwargs : Type}
    (density : TrackRun → grid → grid → string → string → kwargs → result grid)
    tr_obj lon2d lat2d subsets density_types kw :
  log_parametric (calc_all_dens density tr_obj lon2d lat2d subsets density_types kw).
Proof.
  unfold calc_all_dens.
  apply log_parametric_bind.
  { destruct subsets; simpl;
      repeat match goal with |- context [if ?b then _ else _] => destruct b end;
      apply log_parametric_ret || apply log_parametric_raise. }
  intros subsets'.
  repeat (apply log_parametric_bind; [apply log_parametric_lift|]; intros ?).
  apply log_parametric_bind.
  { apply log_parametric_for_append. intros s.
    apply log_parametric_bind; [|intros; apply log_parametric_lift].
    apply log_parametric_for_append. intros b.
    eexists _, _. intros log. reflexivity. }
  intros list1. apply log_parametric_bind; [apply log_parametric_lift|].
  intros da. apply log_parametric_ret.
Qed.

(** C8: a [subsets] argument that is given but is a bare string or not
    iterable makes the call fail with [ArgumentError] at once: the log of
    density calls is returned unchanged and there is no result. *)
Theorem calc_all_dens_invalid_subsets {kwargs : Type}
    (density : TrackRun → grid → grid → string → string → kwargs → result grid)
    (tr_obj : TrackRun) (lon2d lat2d : grid) (subsets : py_subsets)
    (density_types : list string) (kw : kwargs) (log : list call) :
  subsets ≠ PyNone →
  is_iterable subsets = false ∨ is_str subsets = true →
  calc_all_dens density tr_obj lon2d lat2d subsets density_types kw log
  = (Raise ArgumentError, log).
Proof.
  intros Hgiven Hbad. unfold calc_all_dens, bind.
  destruct subsets as [|s|l|n]; [done| | |]; simpl in *;
    solve [done | destruct Hbad; discriminate].
Qed.

Lemma calc_all_dens_invalid_subsets_witness :
  calc_all_dens (λ _ _ _ _ _ (_ : unit), Ok [[1%float]]) example_run [] []
                (PyStr "basic") DENSITY_TYPES tt []
  = (Raise ArgumentError, []).
Proof.
  apply (calc_all_dens_invalid_subsets _ example_run [] [] (PyStr "basic")).
  - discriminate.
  - right. reflexivity.
Defined.

(** C3 fails on the code: for a track run that is not categorised and
    [subsets=None], [subsets] stays [None]; building the subset coordinate
    from it raises, before any density is computed. *)
Theorem calc_all_dens_uncategorised_fails {kwargs : Type}
    (density : TrackRun → grid → grid → string → string → kwargs → result grid)
    (tracks : list (Z * OctantTrack)) (labels : list string) (settings : TrackSettings)
    (mask : option grid) (lon2d lat2d : grid) (density_types : list string)
    (kw : kwargs) (log : list call) :
  calc_all_dens density
    {| gb := tracks; is_categorised := false; cat_labels := labels;
       conf := settings; themask := mask |}
    lon2d lat2d PyNone density_types kw log
  = (Raise ValueError, log).
Proof. reflexivity. Qed.

(** Without [subsets], a categorised track run is processed label by
    label. *)
Lemma calc_all_dens_default_subsets {kwargs : Type}
    (density : TrackRun → grid → grid → string → string → kwargs → result grid)
    tr_obj lon2d lat2d density_types kw :
  is_categorised tr_obj = true →
  calc_all_dens density tr_obj lon2d lat2d PyNone density_types kw
  = calc_all_dens density tr_obj lon2d lat2d (PyList (cat_labels tr_obj))
                  density_types kw.
Proof. intros Hcat. unfold calc_all_dens. by rewrite Hcat. Qed.

(** An empty list of subsets, or of density types, leaves [xr.concat]
    without an object to concatenate. *)
Lemma calc_all_dens_empty_subsets {kwargs : Type}
    (density : TrackRun → grid → grid → string → string → kwargs → result grid)
    tr_obj lon2d lat2d density_types kw log :
  calc_all_dens density tr_obj lon2d lat2d (PyList []) density_types kw log
  = (Raise ValueError, log).
Proof. reflexivity. Qed.

Lemma calc_all_dens_empty_density_types {kwargs : Type}
    (density : TrackRun → grid → grid → string → string → kwargs → result grid)
    tr_obj lon2d lat2d s subsets kw log :
  calc_all_dens density tr_obj lon2d lat2d (PyList (s :: subsets)) [] kw log
  = (Raise ValueError, log).
Proof. reflexivity. Qed.

(** Were the coordinate to be built all the same, the loop over [None]
    would raise [TypeError]. *)
Lemma py_iter_None : py_iter PyNone = Raise TypeError.
Proof. reflexivity. Qed.

Lemma bind_ret_l {A B : Type} (a : A) (k : A → M B) : bind (ret a) k = k a.
Proof. reflexivity. Qed.

Lemma bind_lift_Ok {A B : Type} (a : A) (k : A → M B) : bind (lift (Ok a)) k = k a.
Proof. reflexivity. Qed.

(** C6: for a list of subsets and a list of density types, both non-empty,
    on which every density call succeeds with a field on the grid, the
    result is the array named "density" with sizes
    (len(subsets), len(density_types), nlat, nlon); its field at position
    [(i, j)] is exactly the density of [subsets[i]] by [density_types[j]];
    both axes carry the labels in the order of the input lists; and the
    density calls are made in that order, subset by subset. *)
Theorem calc_all_dens_slices {kwargs : Type}
    (density : TrackRun → grid → grid → string → string → kwargs → result grid)
    (tr_obj : TrackRun) (lon2d lat2d : grid) (subsets density_types : list string)
    (kw : kwargs) (nlat nlon : nat) (log : list call) :
  subsets ≠ [] →
  density_types ≠ [] →
  (∀ s b, s ∈ subsets → b ∈ density_types →
     ∃ g, density tr_obj lon2d lat2d b s kw = Ok g ∧ grid_shape nlat nlon g) →
  ∃ da,
    calc_all_dens density tr_obj lon2d lat2d (PyList subsets) density_types kw log
    = (Ok da, log ++ (subsets ≫= λ s, density_types ≫= λ b, [(b, s)]))
    ∧ da_name da = "density"
    ∧ has_sizes da (length subsets) (length density_types) nlat nlon
    ∧ has_labels da subsets density_types
    ∧ ∀ (i j : nat) s b,
        subsets !! i = Some s → density_types !! j = Some b →
        ∃ g, density tr_obj lon2d lat2d b s kw = Ok g ∧ slice da i j = Some g.
Proof.
  intros Hs Hb Hdens.
  set (f := λ s b, match density tr_obj lon2d lat2d b s kw with
                   | Ok g => g
                   | Raise _ => []
                   end).
  assert (Hf : ∀ s b, s ∈ subsets → b ∈ density_types →
                 density tr_obj lon2d lat2d b s kw = Ok (f s b)
                 ∧ grid_shape nlat nlon (f s b)).
  { intros s b Hin Hbin. destruct (Hdens s b Hin Hbin) as (g & Hg & Hshape).
    unfold f. by rewrite Hg. }
  set (dens_dim := {| coord_name := "dens_type"; coord_dims := "dens_type";
                      coord_data := density_types |}).
  set (subset_dim := {| coord_name := "subset"; coord_dims := "subset";
                        coord_data := subsets |}).
  set (slab := λ s, {| stack_dim := dens_dim; stack_items := f s <$> density_types |}).
  exists {| da_name := "density";
            da_data := {| stack_dim := subset_dim; stack_items := slab <$> subsets |} |}.
  split; [|split; [done|split; [|split]]].
  - unfold calc_all_dens.
    cbn [negb is_iterable is_str orb xr_DataArray py_iter].
    rewrite bind_ret_l. cbn [xr_DataArray py_iter].
    rewrite !bind_lift_Ok.
    fold dens_dim subset_dim.
    unfold bind at 1.
    rewrite (for_append_Ok _ slab (λ s, density_types ≫= λ b, [(b, s)])).
    + rewrite app_nil_l.
      rewrite xr_concat_Ok; [done| |by rewrite length_fmap].
      destruct subsets; done.
    + intros s Hin log'. unfold bind.
      rewrite (for_append_Ok _ (f s) (λ b, [(b, s)])).
      * unfold lift. rewrite app_nil_l.
        rewrite xr_concat_Ok; [done| |by rewrite length_fmap].
        destruct density_types; done.
      * intros b Hbin log''. unfold call_density.
        by rewrite (proj1 (Hf s b Hin Hbin)).
  - unfold has_sizes. simpl. split; [by rewrite length_fmap|].
    apply Forall_fmap, Forall_forall. intros s Hin. simpl.
    split; [by rewrite length_fmap|].
    apply Forall_fmap, Forall_forall. intros b Hbin. by apply Hf.
  - unfold has_labels. simpl. split; [done|].
    apply Forall_fmap, Forall_forall. by intros s Hin.
  - intros i j s b Hi Hj. exists (f s b). split.
    + apply Hf; [by eapply list_elem_of_lookup_2|by eapply list_elem_of_lookup_2].
    + unfold slice. simpl. rewrite list_lookup_fmap, Hi. simpl.
      by rewrite list_lookup_fmap, Hj.
Qed.

Lemma calc_all_dens_slices_witness :
  ∃ da,
    calc_all_dens (λ _ _ _ _ _ (_ : unit), Ok [[1%float; 2%float]]) example_run
                  [[0%float; 1%float]] [[70%float; 70%float]]
                  (PyList ["weak"; "strong"]) DENSITY_TYPES tt []
    = (Ok da, [] ++ (["weak"; "strong"] ≫= λ s, DENSITY_TYPES ≫= λ b, [(b, s)]))
    ∧ da_name da = "density"
    ∧ has_sizes da (length ["weak"; "strong"]) (length DENSITY_TYPES) 1 2
    ∧ has_labels da ["weak"; "strong"] DENSITY_TYPES
    ∧ ∀ (i j : nat) s b,
        ["weak"; "strong"] !! i = Some s → DENSITY_TYPES !! j = Some b →
        ∃ g, Ok [[1%float; 2%float]] = Ok g ∧ slice da i j = Some g.
Proof.
  apply (calc_all_dens_slices (λ _ _ _ _ _ (_ : unit), Ok [[1%float; 2%float]])
           example_run [[0%float; 1%float]] [[70%float; 70%float]]
           ["weak"; "strong"] DENSITY_TYPES tt 1 2 []).
  - discriminate.
  - discriminate.
  - intros s b _ _. exists [[1%float; 2%float]]. split; [reflexivity|].
    split; [reflexivity|]. repeat constructor.
Defined.

(** * [check_by_mask] *)

Lemma apply_bound_drop_falsy bound cmp coords idx :
  apply_bound (drop_falsy bound) cmp coords idx = apply_bound bound cmp coords idx.
Proof.
  destruct bound as [x|]; [|done]. simpl.
  destruct (py_bool x) eqn:Hx; simpl; by rewrite ?Hx.
Qed.

Lemma apply_bound_falsy x cmp coords idx :
  py_bool x = false → apply_bound (Some x) cmp coords idx = apply_bound None cmp coords idx.
Proof. intros Hx. simpl. by rewrite Hx. Qed.

Section check_by_mask_facts.
Variable mask_tracks : grid → grid → grid → list (float * float) → float → float.

(** The call reads the track run only through its four bounds, and these
    only as far as they are true in Python's sense. *)
Lemma check_by_mask_effective_conf ot tr c lsm lmask_thresh rad mask_thresh :
  check_by_mask mask_tracks ot (with_conf tr c) lsm lmask_thresh rad mask_thresh
  = (fst (check_by_mask mask_tracks ot (with_conf tr (effective_conf c)) lsm
                        lmask_thresh rad mask_thresh),
     with_conf
       (snd (check_by_mask mask_tracks ot (with_conf tr (effective_conf c)) lsm
                           lmask_thresh rad mask_thresh)) c).
Proof.
  destruct lsm as [lsm|]; [|done].
  unfold check_by_mask, np_meshgrid.
  cbn [conf with_conf effective_conf lon1 lon2 lat1 lat2].
  rewrite !apply_bound_drop_falsy.
  by destruct (assign_outside _ _).
Qed.
End check_by_mask_facts.

(** ** Arrays on the grid of [np.meshgrid] *)

Lemma mesh_ext {A : Type} (f g : float → float → A) lons lats :
  (∀ lo la, f lo la = g lo la) → mesh f lons lats = mesh g lons lats.
Proof.
  intros Hfg. unfold mesh. apply list_fmap_ext; intros _ la _.
  apply list_fmap_ext; intros _ lo _. apply Hfg.
Qed.

Lemma length_mesh {A : Type} (f : float → float → A) lons lats :
  length (mesh f lons lats) = length lats.
Proof. unfold mesh. by rewrite length_fmap. Qed.

Lemma np_meshgrid_mesh lons lats :
  np_meshgrid lons lats = (mesh (λ lo _, lo) lons lats, mesh (λ _ la, la) lons lats).
Proof.
  unfold np_meshgrid, mesh. f_equal.
  - symmetry. apply const_fmap. intros _ la _. apply list_fmap_id.
  - apply list_fmap_ext; intros _ la _. symmetry. by apply const_fmap.
Qed.

Lemma map2d_mesh {A B : Type} (g : A → B) (f : float → float → A) lons lats :
  map2d g (mesh f lons lats) = mesh (λ lo la, g (f lo la)) lons lats.
Proof.
  unfold map2d, mesh. rewrite <- list_fmap_compose.
  apply list_fmap_ext; intros _ la _. simpl. by rewrite <- list_fmap_compose.
Qed.

Lemma zip_with_fmap_same {A B C D : Type} (h : B → C → D) (f : A → B) (g : A → C)
    (l : list A) :
  zip_with h (f <$> l) (g <$> l) = (λ x, h (f x) (g x)) <$> l.
Proof. induction l as [|x l IH]; [done|]. cbn. f_equal. exact IH. Qed.

Lemma zip2d_mesh {A B C : Type} (h : A → B → C) (f : float → float → A)
    (g : float → float → B) lons lats :
  zip2d h (mesh f lons lats) (mesh g lons lats)
  = mesh (λ lo la, h (f lo la) (g lo la)) lons lats.
Proof.
  unfold zip2d, mesh. rewrite zip_with_fmap_same.
  apply list_fmap_ext; intros _ la _. apply zip_with_fmap_same.
Qed.



(** ** The inner region *)

Lemma apply_bound_mesh bound cmp (coord : float → float → float) any p lons lats :
  (any = false → ∀ lo la, p lo la = true) →
  apply_bound bound cmp (mesh coord lons lats) (idx_of any p lons lats)
  = idx_of (any || truthy bound)
           (λ lo la, p lo la && bound_holds bound cmp (coord lo la)) lons lats.
Proof.
  intros Hp. unfold apply_bound, bound_holds, truthy, drop_falsy.
  destruct bound as [x|]; [destruct (py_bool x)|].
  - rewrite orb_true_r. simpl. rewrite map2d_mesh.
    destruct any; simpl.
    + by rewrite zip2d_mesh.
    + f_equal. apply mesh_ext; intros lo la. by rewrite Hp.
  - rewrite orb_false_r. destruct any; simpl; [|done].
    f_equal. apply mesh_ext; intros lo la. by rewrite andb_true_r.
  - rewrite orb_false_r. destruct any; simpl; [|done].
    f_equal. apply mesh_ext; intros lo la. by rewrite andb_true_r.
Qed.

Lemma bound_holds_not_truthy bound cmp v : truthy bound = false → bound_holds bound cmp v = true.
Proof.
  unfold truthy, bound_holds, drop_falsy.
  destruct bound as [x|]; [|done]. by intros ->.
Qed.

(** Lines 164 to 172: the value of [inner_idx] after the four tests. *)
Lemma inner_idx_final (c : TrackSettings) lons lats :
  apply_bound (lat2 c) le (mesh (λ _ la, la) lons lats)
    (apply_bound (lat1 c) ge (mesh (λ _ la, la) lons lats)
       (apply_bound (lon2 c) le (mesh (λ lo _, lo) lons lats)
          (apply_bound (lon1 c) ge (mesh (λ lo _, lo) lons lats) PyTrue)))
  = idx_of (bounded c) (in_inner_region c) lons lats.
Proof.
  change PyTrue with (idx_of false (λ _ _, true) lons lats).
  rewrite apply_bound_mesh by done.
  rewrite apply_bound_mesh.
  2:{ intros [_ H1]%orb_false_elim lo la. simpl. by apply bound_holds_not_truthy. }
  rewrite apply_bound_mesh.
  2:{ intros [[_ H1]%orb_false_elim H2]%orb_false_elim lo la. simpl.
      by rewrite !bound_holds_not_truthy. }
  rewrite apply_bound_mesh.
  2:{ intros [[[_ H1]%orb_false_elim H2]%orb_false_elim H3]%orb_false_elim lo la.
      simpl. by rewrite !bound_holds_not_truthy. }
  unfold bounded, idx_of. simpl. destruct (_ || _); [|done].
  f_equal.
Qed.

Section check_by_mask_spec.
Variable mask_tracks : grid → grid → grid → list (float * float) → float → float.


(** With no bound in force [inner_idx] is still the constant [True], so
    [~inner_idx] is the integer -2 and the assignment marks the last row
    but one; on fewer than two rows it raises [IndexError]. *)
Lemma check_by_mask_unbounded ot tr lsm lmask_thresh rad mask_thresh :
  bounded (conf tr) = false →
  check_by_mask mask_tracks ot tr (XrDataArray lsm) lmask_thresh rad mask_thresh
  = match np_index (length (latitude lsm)) (-2) with
    | Raise e => (Raise e, tr)
    | Ok k =>
        let m :=
          zip2d (λ b l, bool_times (PrimFloat.eqb b 1 || ge l lmask_thresh) 1)
                (alter (λ row : list float, (λ _, 1%float) <$> row) k
                       (mesh (λ _ _, 0%float) (longitude lsm) (latitude lsm)))
                (values lsm) in
        (Ok (PrimFloat.ltb
               (mask_tracks m (fst (np_meshgrid (longitude lsm) (latitude lsm)))
                            (snd (np_meshgrid (longitude lsm) (latitude lsm)))
                            (lonlat_c ot) (rad * 1000)%float)
               mask_thresh),
         set_themask tr m)
    end.
Proof.
  intros Hb. unfold check_by_mask. rewrite np_meshgrid_mesh.
  cbn [fst snd]. rewrite inner_idx_final, Hb. unfold idx_of, assign_outside.
  rewrite map2d_mesh, length_mesh.
  change (py_invert_bool true) with (-2).
  by destruct (np_index _ _).
Qed.
End check_by_mask_spec.

(** The call reads only [conf] of the track run, and either raises and
    leaves the track run alone or returns a flag and stores a mask. *)
Lemma check_by_mask_cases
    (mask_tracks : grid → grid → grid → list (float * float) → float → float)
    ot tr lsm lmask_thresh rad mask_thresh :
  (∃ e, ∀ tr', conf tr' = conf tr →
      check_by_mask mask_tracks ot tr' lsm lmask_thresh rad mask_thresh = (Raise e, tr'))
  ∨ (∃ flag m, ∀ tr', conf tr' = conf tr →
      check_by_mask mask_tracks ot tr' lsm lmask_thresh rad mask_thresh
      = (Ok flag, set_themask tr' m)).
Proof.
  destruct lsm as [lsm|]; [|left; by exists AssertionError].
  pose (lon2d := fst (np_meshgrid (longitude lsm) (latitude lsm))).
  pose (lat2d := snd (np_meshgrid (longitude lsm) (latitude lsm))).
  destruct (assign_outside
              (apply_bound (lat2 (conf tr)) le lat2d
                 (apply_bound (lat1 (conf tr)) ge lat2d
                    (apply_bound (lon2 (conf tr)) le lon2d
                       (apply_bound (lon1 (conf tr)) ge lon2d PyTrue))))
              (map2d (λ _, 0%float) lon2d)) as [bm|e] eqn:Hbm.
  - right. eexists _, _. intros tr' Hc. unfold check_by_mask, np_meshgrid.
    rewrite Hc. unfold lon2d, lat2d, np_meshgrid in Hbm. cbn [fst snd] in Hbm.
    by rewrite Hbm.
  - left. exists e. intros tr' Hc. unfold check_by_mask, np_meshgrid.
    rewrite Hc. unfold lon2d, lat2d, np_meshgrid in Hbm. cbn [fst snd] in Hbm.
    by rewrite Hbm.
Qed.

(** C4 fails on the code when no bound is configured: over open sea, with
    nothing outside the inner region, the mask of the specification is zero
    everywhere, but the call stores a mask whose middle row (of three) is
    1.0; on a grid with a single latitude the call raises [IndexError] and
    stores nothing. *)
Theorem check_by_mask_no_bounds_marks_row
    (mask_tracks : grid → grid → grid → list (float * float) → float → float)
    (ot : OctantTrack) :
  combined_mask no_bounds sea_3x2 1
  = [[0%float; 0%float]; [0%float; 0%float]; [0%float; 0%float]]
  ∧ themask (snd (check_by_mask mask_tracks ot (with_conf example_run no_bounds)
                                (XrDataArray sea_3x2) 1 50 0.5))
    = Some [[0%float; 0%float]; [1%float; 1%float]; [0%float; 0%float]]
  ∧ check_by_mask mask_tracks ot (with_conf example_run no_bounds)
                  (XrDataArray sea_1x2) 1 50 0.5
    = (Raise IndexError, with_conf example_run no_bounds).
Proof. repeat split; reflexivity. Qed.

(** C10: two configurations that agree once the bounds that are missing or
    false in Python's sense (such as 0) are dropped give the same flag and
    store the same mask: a bound of 0 acts as no bound at all. *)
Theorem check_by_mask_falsy_bound
    (mask_tracks : grid → grid → grid → list (float * float) → float → float)
    (ot : OctantTrack) (tr : TrackRun) (c c' : TrackSettings) (lsm : py_lsm)
    (lmask_thresh rad mask_thresh : float) :
  effective_conf c = effective_conf c' →
  fst (check_by_mask mask_tracks ot (with_conf tr c) lsm lmask_thresh rad mask_thresh)
  = fst (check_by_mask mask_tracks ot (with_conf tr c') lsm lmask_thresh rad mask_thresh)
  ∧ themask (snd (check_by_mask mask_tracks ot (with_conf tr c) lsm
                                lmask_thresh rad mask_thresh))
    = themask (snd (check_by_mask mask_tracks ot (with_conf tr c') lsm
                                  lmask_thresh rad mask_thresh)).
Proof.
  intros Heq.
  rewrite (check_by_mask_effective_conf _ ot tr c).
  rewrite (check_by_mask_effective_conf _ ot tr c').
  rewrite Heq. done.
Qed.

Lemma check_by_mask_falsy_bound_witness :
  fst (check_by_mask (λ _ _ _ _ _, 0.25%float) [at_lonlat 5 70]
         (with_conf example_run
            {| lon1 := Some 0%float; lon2 := Some 20%float;
               lat1 := Some 60%float; lat2 := Some 80%float |})
         (XrDataArray sea_3x2) 1 50 0.5)
  = fst (check_by_mask (λ _ _ _ _ _, 0.25%float) [at_lonlat 5 70]
           (with_conf example_run
              {| lon1 := None; lon2 := Some 20%float;
                 lat1 := Some 60%float; lat2 := Some 80%float |})
           (XrDataArray sea_3x2) 1 50 0.5)
  ∧ themask (snd (check_by_mask (λ _ _ _ _ _, 0.25%float) [at_lonlat 5 70]
                    (with_conf example_run
                       {| lon1 := Some 0%float; lon2 := Some 20%float;
                          lat1 := Some 60%float; lat2 := Some 80%float |})
                    (XrDataArray sea_3x2) 1 50 0.5))
    = themask (snd (check_by_mask (λ _ _ _ _ _, 0.25%float) [at_lonlat 5 70]
                      (with_conf example_run
                         {| lon1 := None; lon2 := Some 20%float;
                            lat1 := Some 60%float; lat2 := Some 80%float |})
                      (XrDataArray sea_3x2) 1 50 0.5)).
Proof.
  apply (check_by_mask_falsy_bound (λ _ _ _ _ _, 0.25%float) [at_lonlat 5 70]
           example_run
           {| lon1 := Some 0%float; lon2 := Some 20%float;
              lat1 := Some 60%float; lat2 := Some 80%float |}
           {| lon1 := None; lon2 := Some 20%float;
              lat1 := Some 60%float; lat2 := Some 80%float |}).
  reflexivity.
Defined.

(** C9: the functions that carry state are repeatable.  A second call of
    [check_by_mask] on the track run left by the first returns the same
    flag and leaves the same track run; whatever mask was stored before
    does not change the flag or the mask stored; and the outcome of
    [calc_all_dens] does not depend on the density calls made before it.
    ([bin_count_tracks] and [check_far_from_boundaries] read nothing but
    their arguments.) *)
Theorem repeated_calls_agree :
  (∀ mask_tracks ot tr lsm lmask_thresh rad mask_thresh,
     check_by_mask mask_tracks ot
       (snd (check_by_mask mask_tracks ot tr lsm lmask_thresh rad mask_thresh))
       lsm lmask_thresh rad mask_thresh
     = check_by_mask mask_tracks ot tr lsm lmask_thresh rad mask_thresh)
  ∧ (∀ mask_tracks ot tr (m : grid) lsm lmask_thresh rad mask_thresh,
       fst (check_by_mask mask_tracks ot (set_themask tr m) lsm
                          lmask_thresh rad mask_thresh)
       = fst (check_by_mask mask_tracks ot tr lsm lmask_thresh rad mask_thresh)
       ∧ ∀ flag,
           fst (check_by_mask mask_tracks ot tr lsm lmask_thresh rad mask_thresh)
           = Ok flag →
           snd (check_by_mask mask_tracks ot (set_themask tr m) lsm
                              lmask_thresh rad mask_thresh)
           = snd (check_by_mask mask_tracks ot tr lsm lmask_thresh rad mask_thresh))
  ∧ (∀ (kwargs : Type)
       (density : TrackRun → grid → grid → string → string → kwargs → result grid)
       tr_obj lon2d lat2d subsets density_types kw log log',
       fst (calc_all_dens density tr_obj lon2d lat2d subsets density_types kw log)
       = fst (calc_all_dens density tr_obj lon2d lat2d subsets density_types kw log')).
Proof.
  split; [|split].
  - intros mt ot tr lsm a b c.
    destruct (check_by_mask_cases mt ot tr lsm a b c)
      as [(e & H)|(flag & m & H)].
    + rewrite (H tr eq_refl). cbn [snd]. by rewrite (H tr eq_refl).
    + rewrite (H tr eq_refl). cbn [snd]. by rewrite (H (set_themask tr m) eq_refl).
  - intros mt ot tr m0 lsm a b c.
    destruct (check_by_mask_cases mt ot tr lsm a b c)
      as [(e & H)|(flag & m & H)].
    + rewrite (H tr eq_refl), (H (set_themask tr m0) eq_refl). by split.
    + rewrite (H tr eq_refl), (H (set_themask tr m0) eq_refl). by split.
  - intros kwargs density tr_obj lon2d lat2d subsets density_types kw log log'.
    destruct (log_parametric_calc_all_dens density tr_obj lon2d lat2d subsets
                density_types kw) as (r & calls & Hrun).
    by rewrite !Hrun.
Qed.

(** * Further properties of [bin_count_tracks] *)

(** The counters of the two modes in closed form, as 64-bit numbers. *)
Lemma bin_count_tracks_month_run (tr_obj : TrackRun) (start_year n_winters : Z)
    (by_ : string) :
  upper by_ = "M" →
  months_valid (gb tr_obj) →
  ∃ counter,
    bin_count_tracks tr_obj start_year n_winters by_ = Ok counter
    ∧ length counter = 12%nat
    ∧ ∀ k : nat, (k < 12)%nat →
        counter !! k = Some (wrap_int64 (Z.of_nat (tally touches_month k (gb tr_obj)))).
Proof.
  intros Hby Hvalid. unfold bin_count_tracks.
  rewrite (bool_decide_eq_true_2 _ Hby).
  rewrite bool_decide_eq_false_2 by (rewrite Hby; discriminate).
  rewrite np_zeros_nonneg by lia.
  destruct (for_each_tally
              (λ c (g : Z * OctantTrack), for_each month_body c (track_months g.2))
              touches_month 12 (gb tr_obj)) with (c := replicate (Z.to_nat 12) 0)
    as (c' & Hrun & Hlen & Hlook).
  { intros g c Hg Hc. apply month_track_step; [|done].
    unfold months_valid in Hvalid. rewrite Forall_forall in Hvalid. by apply Hvalid. }
  { by rewrite length_replicate. }
  rewrite result_bind_Ok, Hrun, !result_bind_Ok.
  exists c'. split; [done|]. split; [done|].
  intros k Hk. rewrite (Hlook k 0); [done|].
  apply lookup_replicate_2. lia.
Qed.

Lemma bin_count_tracks_winter_run (tr_obj : TrackRun) (start_year n_winters : Z)
    (by_ : string) :
  upper by_ = "W" →
  0 ≤ n_winters →
  tracks_nonempty (gb tr_obj) →
  ∃ counter,
    bin_count_tracks tr_obj start_year n_winters by_ = Ok counter
    ∧ length counter = Z.to_nat n_winters
    ∧ ∀ k : nat, (k < Z.to_nat n_winters)%nat →
        counter !! k
        = Some (wrap_int64 (Z.of_nat (tally (touches_winter start_year) k (gb tr_obj)))).
Proof.
  intros Hby Hn Hne. unfold bin_count_tracks.
  rewrite (bool_decide_eq_false_2 (upper by_ = "M")) by (rewrite Hby; discriminate).
  rewrite (bool_decide_eq_true_2 _ Hby).
  rewrite np_zeros_nonneg by done.
  destruct (for_each_tally
              (λ c (g : Z * OctantTrack),
                 for_each (winter_body (track_months g.2) (track_years g.2) start_year)
                          c (py_range n_winters))
              (touches_winter start_year) (Z.to_nat n_winters) (gb tr_obj))
    with (c := replicate (Z.to_nat n_winters) 0)
    as (c' & Hrun & Hlen & Hlook).
  { intros g c Hg Hc.
    destruct (winter_track_step start_year n_winters g.2 c)
      as (c1 & Hc1 & Hl1 & Hk1); [|lia|].
    { unfold tracks_nonempty in Hne. rewrite Forall_forall in Hne. by apply Hne. }
    exists c1. split; [done|]. split; [congruence|done]. }
  { by rewrite length_replicate. }
  rewrite !result_bind_Ok, Hrun, !result_bind_Ok.
  exists c'. split; [done|]. split; [done|].
  intros k Hk. rewrite (Hlook k 0); [done|].
  by apply lookup_replicate_2.
Qed.

Lemma tally_Permutation {G : Type} (touch : G → nat → bool) k (gs gs' : list G) :
  gs ≡ₚ gs' → tally touch k gs = tally touch k gs'.
Proof. intros Hp. unfold tally. by rewrite Hp. Qed.


Lemma tally_cons {G : Type} (touch : G → nat → bool) k g (gs : list G) :
  tally touch k (g :: gs) = (Nat.b2n (touch g k) + tally touch k gs)%nat.
Proof.
  unfold tally. rewrite filter_cons. by destruct (touch g k).
Qed.

Lemma tally_ext {G : Type} (touch touch' : G → nat → bool) k (gs : list G) :
  (∀ g, g ∈ gs → touch g k = touch' g k) → tally touch k gs = tally touch' k gs.
Proof.
  intros H. induction gs as [|g gs IH]; [done|].
  rewrite !tally_cons, (H g) by left. rewrite IH; [done|].
  intros g' Hg'. apply H. by right.
Qed.

(** Two counters of the same length that agree bucket by bucket. *)
Lemma counters_eq (n : nat) (c c' : list Z) (f : nat → Z) :
  length c = n → length c' = n →
  (∀ k : nat, (k < n)%nat → c !! k = Some (f k)) →
  (∀ k : nat, (k < n)%nat → c' !! k = Some (f k)) →
  c = c'.
Proof.
  intros Hc Hc' H H'. apply (list_eq_same_length _ _ n); [done..|].
  intros k x y Hk Hx Hy. rewrite H in Hx by done. rewrite H' in Hy by done. congruence.
Qed.

(** X1: the order of the tracks in the run does not matter: a run with the
    same tracks in another order gives the same result, for every flag. *)
Theorem bin_count_tracks_track_order (tr_obj : TrackRun)
    (tracks : list (Z * OctantTrack)) (start_year n_winters : Z) (by_ : string) :
  gb tr_obj ≡ₚ tracks →
  months_valid (gb tr_obj) →
  tracks_nonempty (gb tr_obj) →
  0 ≤ n_winters →
  bin_count_tracks (with_gb tr_obj tracks) start_year n_winters by_
  = bin_count_tracks tr_obj start_year n_winters by_.
Proof.
  intros Hperm Hvalid Hne Hn.
  destruct (decide (upper by_ = "M")) as [HM|HM];
    [|destruct (decide (upper by_ = "W")) as [HW|HW]].
  - destruct (bin_count_tracks_month_run tr_obj start_year n_winters by_ HM Hvalid)
      as (c & -> & Hc & Hk).
    destruct (bin_count_tracks_month_run (with_gb tr_obj tracks) start_year
                n_winters by_ HM) as (c' & -> & Hc' & Hk').
    { unfold months_valid in *. simpl. by rewrite <- Hperm. }
    f_equal. refine (counters_eq 12 c' c _ Hc' Hc _ Hk).
    intros k Hlt. rewrite (Hk' k Hlt). simpl.
    by rewrite (tally_Permutation _ _ _ _ Hperm).
  - destruct (bin_count_tracks_winter_run tr_obj start_year n_winters by_ HW Hn Hne)
      as (c & -> & Hc & Hk).
    destruct (bin_count_tracks_winter_run (with_gb tr_obj tracks) start_year
                n_winters by_ HW Hn) as (c' & -> & Hc' & Hk').
    { unfold tracks_nonempty in *. simpl. by rewrite <- Hperm. }
    f_equal. refine (counters_eq _ c' c _ Hc' Hc _ Hk).
    intros k Hlt. rewrite (Hk' k Hlt). simpl.
    by rewrite (tally_Permutation _ _ _ _ Hperm).
  - unfold bin_count_tracks. by rewrite !bool_decide_eq_false_2.
Qed.

Lemma bin_count_tracks_track_order_witness :
  bin_count_tracks (with_gb example_run (reverse (gb example_run))) 2000 3 "W"
  = bin_count_tracks example_run 2000 3 "W".
Proof.
  apply (bin_count_tracks_track_order example_run (reverse (gb example_run)) 2000 3 "W").
  - by rewrite reverse_Permutation.
  - repeat constructor; simpl; lia.
  - repeat constructor; discriminate.
  - lia.
Defined.

(** X2: in month mode only the set of months of each track matters: two
    runs whose tracks, one by one, touch the same months give the same
    counts, whatever the number and the order of the points. *)
Theorem bin_count_tracks_month_sets (tr_obj : TrackRun)
    (tracks : list (Z * OctantTrack)) (start_year n_winters : Z) (by_ : string) :
  upper by_ = "M" →
  months_valid (gb tr_obj) →
  Forall2 (λ g g' : Z * OctantTrack, ∀ m, m ∈ months_of g.2 ↔ m ∈ months_of g'.2)
          (gb tr_obj) tracks →
  bin_count_tracks (with_gb tr_obj tracks) start_year n_winters by_
  = bin_count_tracks tr_obj start_year n_winters by_.
Proof.
  intros HM Hvalid Hsame.
  destruct (bin_count_tracks_month_run tr_obj start_year n_winters by_ HM Hvalid)
    as (c & -> & Hc & Hk).
  destruct (bin_count_tracks_month_run (with_gb tr_obj tracks) start_year
              n_winters by_ HM) as (c' & -> & Hc' & Hk').
  { unfold months_valid in *. simpl. clear Hk.
    induction Hsame as [|g g' gs gs' Hg Hgs IH]; [done|].
    apply Forall_cons in Hvalid as [Hv Hvs]. constructor; [|by apply IH].
    rewrite Forall_forall in Hv |- *. intros r Hr.
    assert (Hm : month (time r) ∈ months_of g.2).
    { apply Hg. unfold months_of. apply list_elem_of_fmap. by exists r. }
    apply list_elem_of_fmap in Hm as (r' & -> & Hr'). by apply Hv. }
  f_equal. refine (counters_eq 12 c' c _ Hc' Hc _ Hk).
  intros k Hlt. rewrite (Hk' k Hlt). simpl. do 3 f_equal.
  clear Hk Hk' Hc Hc' Hvalid. symmetry.
  induction Hsame as [|g g' gs gs' Hg Hgs IH]; [done|].
  rewrite !tally_cons, IH. do 2 f_equal.
  unfold touches_month. apply bool_decide_ext, Hg.
Qed.

Lemma bin_count_tracks_month_sets_witness :
  bin_count_tracks
    (with_gb example_run
       [(0, [point 2001 4 1; point 2001 3 30]);
        (1, [point 2002 12 24; point 2002 12 25]);
        (2, [point 2001 1 1; point 2000 12 31])]) 2000 3 "M"
  = bin_count_tracks example_run 2000 3 "M".
Proof.
  apply (bin_count_tracks_month_sets example_run).
  - reflexivity.
  - repeat constructor; simpl; lia.
  - simpl.
    repeat (constructor;
            [intros m; simpl; rewrite !elem_of_cons, !elem_of_nil; tauto|]).
    constructor.
Defined.

Lemma in_winter_unique (start_year i j : Z) (df : OctantTrack) :
  in_winter start_year i df = true → in_winter start_year j df = true → i = j.
Proof.
  unfold in_winter.
  destruct (last_month df) as [m|]; [|done].
  destruct (first_year df) as [y0|]; [|done].
  destruct (last_year df) as [yl|]; [|done].
  destruct (bool_decide (m ≤ 6)); rewrite !bool_decide_eq_true; lia.
Qed.



Lemma sum_list_with_add {A : Type} (f g : A → nat) (l : list A) :
  sum_list_with (λ x, f x + g x)%nat l = (sum_list_with f l + sum_list_with g l)%nat.
Proof. induction l as [|x l IH]; simpl; lia. Qed.

Lemma sum_list_with_same {A : Type} (f g : A → nat) (l : list A) :
  (∀ x, f x = g x) → sum_list_with f l = sum_list_with g l.
Proof. intros H. induction l as [|x l IH]; simpl; [done|]. by rewrite H, IH. Qed.

Lemma sum_list_with_none {A : Type} (p : A → bool) (l : list A) :
  (∀ x, x ∈ l → p x = false) → sum_list_with (λ x, Nat.b2n (p x)) l = 0%nat.
Proof.
  induction l as [|x l IH]; intros H; simpl; [done|].
  rewrite (H x) by left. rewrite IH; [done|]. intros y Hy. apply H. by right.
Qed.

Lemma sum_list_with_at_most_one {A : Type} (p : A → bool) (l : list A) :
  NoDup l →
  (∀ x y, x ∈ l → y ∈ l → p x = true → p y = true → x = y) →
  (sum_list_with (λ x, Nat.b2n (p x)) l ≤ 1)%nat.
Proof.
  induction 1 as [|x l Hx Hnd IH]; intros Huniq; simpl; [lia|].
  destruct (p x) eqn:Hpx; simpl.
  - rewrite sum_list_with_none; [lia|].
    intros y Hy. destruct (p y) eqn:Hpy; [|done].
    exfalso. apply Hx. rewrite (Huniq x y); [done|by left|by right|done..].
  - apply IH. intros y z Hy Hz. apply Huniq; by right.
Qed.

Lemma np_sum_fmap_of_nat {A : Type} (f : A → nat) (l : list A) :
  np_sum ((λ x, Z.of_nat (f x)) <$> l) = Z.of_nat (sum_list_with f l).
Proof.
  induction l as [|x l IH]; [done|].
  rewrite fmap_cons. cbn [np_sum foldr sum_list_with].
  change (foldr Z.add 0 ?l) with (np_sum l). rewrite IH. lia.
Qed.

(** Every track counts for at most one winter. *)
Lemma sum_tally_winter (start_year : Z) (n : nat) (gs : list (Z * OctantTrack)) :
  (sum_list_with (λ k, tally (touches_winter start_year) k gs) (seq 0 n)
   ≤ length gs)%nat.
Proof.
  induction gs as [|g gs IH].
  { rewrite (sum_list_with_same _ (λ _, 0%nat)) by done.
    induction (seq 0 n) as [|k l IHl]; simpl in *; lia. }
  rewrite (sum_list_with_same _ (λ k, Nat.b2n (touches_winter start_year g k)
                                      + tally (touches_winter start_year) k gs)%nat).
  2:{ intros k. apply tally_cons. }
  rewrite sum_list_with_add.
  pose proof (sum_list_with_at_most_one (touches_winter start_year g) (seq 0 n)
                (NoDup_seq 0 n)) as H1.
  assert (sum_list_with (λ k, Nat.b2n (touches_winter start_year g k)) (seq 0 n) ≤ 1)%nat.
  { apply H1. intros i j _ _ Hi Hj. unfold touches_winter in *.
    apply Nat2Z.inj. by eapply in_winter_unique. }
  cbn [length]. lia.
Qed.

(** X4: the winter counts add up to at most the number of tracks: no track
    is counted for two winters (and none is counted twice). *)
Theorem bin_count_tracks_winter_total (tr_obj : TrackRun) (start_year n_winters : Z)
    (by_ : string) :
  upper by_ = "W" →
  0 ≤ n_winters →
  tracks_nonempty (gb tr_obj) →
  Z.of_nat (length (gb tr_obj)) < 2 ^ 63 →
  ∃ counter,
    bin_count_tracks tr_obj start_year n_winters by_ = Ok counter
    ∧ Forall (λ v, 0 ≤ v) counter
    ∧ np_sum counter ≤ Z.of_nat (length (gb tr_obj)).
Proof.
  intros HW Hn Hne Hsize.
  destruct (bin_count_tracks_winter_run tr_obj start_year n_winters by_ HW Hn Hne)
    as (c & -> & Hc & Hk).
  exists c. split; [done|].
  assert (Heq : c = (λ k, Z.of_nat (tally (touches_winter start_year) k (gb tr_obj)))
                    <$> seq 0 (Z.to_nat n_winters)).
  { apply (list_eq_same_length _ _ (Z.to_nat n_winters));
      [by rewrite length_fmap, length_seq|done|].
    intros k x y Hlt Hx Hy. rewrite (Hk k Hlt) in Hx.
    rewrite list_lookup_fmap, lookup_seq_lt in Hy by done. simpl in Hy.
    pose proof (tally_le (touches_winter start_year) k (gb tr_obj)).
    rewrite wrap_int64_small in Hx by lia. congruence. }
  split.
  - rewrite Heq. apply Forall_fmap, Forall_forall. intros k _. simpl. lia.
  - rewrite Heq, np_sum_fmap_of_nat. apply inj_le, sum_tally_winter.
Qed.

Lemma bin_count_tracks_winter_total_witness :
  ∃ counter,
    bin_count_tracks example_run 2000 3 "W" = Ok counter
    ∧ Forall (λ v, 0 ≤ v) counter
    ∧ np_sum counter ≤ Z.of_nat (length (gb example_run)).
Proof.
  apply (bin_count_tracks_winter_total example_run 2000 3 "W").
  - reflexivity.
  - lia.
  - repeat constructor; discriminate.
  - reflexivity.
Defined.

Lemma for_each_no_items {A S : Type} (body : S → A → result S) (xs : list A) (s : S) :
  (∀ s x, x ∈ xs → body s x = Ok s) → for_each body s xs = Ok s.
Proof.
  induction xs as [|x xs IH]; intros H; simpl; [done|].
  rewrite H by left. rewrite result_bind_Ok. apply IH.
  intros s' y Hy. apply H. by right.
Qed.

(** X5: in winter mode a negative number of winters raises [ValueError]
    (numpy refuses the dimension), and zero winters give the empty array
    whatever the tracks are. *)
Theorem bin_count_tracks_winter_bounds (tr_obj : TrackRun) (start_year n_winters : Z)
    (by_ : string) :
  upper by_ = "W" →
  (n_winters < 0 →
   bin_count_tracks tr_obj start_year n_winters by_ = Raise ValueError)
  ∧ (n_winters = 0 →
     bin_count_tracks tr_obj start_year n_winters by_ = Ok []).
Proof.
  intros HW. unfold bin_count_tracks.
  rewrite (bool_decide_eq_false_2 (upper by_ = "M")) by (rewrite HW; discriminate).
  rewrite (bool_decide_eq_true_2 _ HW). rewrite result_bind_Ok. split.
  - intros Hn. unfold np_zeros. by rewrite (proj2 (Z.ltb_lt _ _) Hn).
  - intros ->. change (np_zeros 0) with (Ok ([] : list Z)).
    rewrite result_bind_Ok, for_each_no_items; [done|].
    by intros s g _.
Qed.

Lemma bin_count_tracks_winter_bounds_witness :
  (-1 < 0 → bin_count_tracks example_run 2000 (-1) "w" = Raise ValueError)
  ∧ (-1 = 0 → bin_count_tracks example_run 2000 (-1) "w" = Ok []).
Proof.
  apply (bin_count_tracks_winter_bounds example_run 2000 (-1) "w").
  reflexivity.
Defined.

(** The loops raise nothing but [IndexError]. *)
Lemma np_index_raises n i e : np_index n i = Raise e → e = IndexError.
Proof.
  unfold np_index. repeat case_match; congruence.
Qed.

Lemma np_incr_raises c i e : np_incr c i = Raise e → e = IndexError.
Proof.
  unfold np_incr. destruct (np_index _ _) as [k|e'] eqn:Hk; simpl; [done|].
  intros [= <-]. by eapply np_index_raises.
Qed.

Lemma np_getitem_raises {A : Type} (a : list A) i e :
  np_getitem a i = Raise e → e = IndexError.
Proof.
  unfold np_getitem. destruct (np_index _ _) as [k|e'] eqn:Hk; simpl.
  - destruct (a !! k); congruence.
  - intros [= <-]. by eapply np_index_raises.
Qed.

Lemma for_each_raises {A S : Type} (body : S → A → result S) (xs : list A) e0 :
  (∀ s x e, body s x = Raise e → e = e0) →
  ∀ s e, for_each body s xs = Raise e → e = e0.
Proof.
  intros Hbody. induction xs as [|x xs IH]; intros s e; simpl; [done|].
  destruct (body s x) as [s'|e'] eqn:Hb; simpl.
  - apply IH.
  - intros [= <-]. by eapply Hbody.
Qed.

Lemma winter_body_raises months years start_year c i e :
  winter_body months years start_year c i = Raise e → e = IndexError.
Proof.
  unfold winter_body.
  destruct (np_getitem months (-1)) as [m|e1] eqn:H1; simpl;
    [|intros [= <-]; by eapply np_getitem_raises].
  destruct (m <=? 6).
  - destruct (np_getitem years 0) as [y|e2] eqn:H2; simpl;
      [|intros [= <-]; by eapply np_getitem_raises].
    destruct (y =? _); [apply np_incr_raises|done].
  - destruct (np_getitem years (-1)) as [y|e2] eqn:H2; simpl;
      [|intros [= <-]; by eapply np_getitem_raises].
    destruct (y =? _); [apply np_incr_raises|done].
Qed.

(** X6: the flag is accepted in exactly four spellings: the call ends in
    [UnboundLocalError] if and only if the flag is none of "M", "m", "W"
    and "w"; with one of these it returns an array or raises [IndexError]
    or [ValueError]. *)
Theorem bin_count_tracks_flags (tr_obj : TrackRun) (start_year n_winters : Z)
    (by_ : string) :
  bin_count_tracks tr_obj start_year n_winters by_ = Raise UnboundLocalError
  ↔ by_ ≠ "M" ∧ by_ ≠ "m" ∧ by_ ≠ "W" ∧ by_ ≠ "w".
Proof.
  split.
  - intros Hres. unfold bin_count_tracks in Hres.
    destruct (decide (upper by_ = "M")) as [HM|HM];
      [|destruct (decide (upper by_ = "W")) as [HW|HW]].
    + exfalso. rewrite (bool_decide_eq_true_2 _ HM) in Hres.
      rewrite bool_decide_eq_false_2 in Hres by (rewrite HM; discriminate).
      change (np_zeros 12) with (Ok (replicate 12 0)) in Hres.
      rewrite result_bind_Ok in Hres.
      destruct (for_each _ _ (gb tr_obj)) as [c|e] eqn:Hloop; [done|].
      simpl in Hres. injection Hres as ->.
      apply (for_each_raises _ _ IndexError) in Hloop; [done|].
      intros s g e. apply for_each_raises. intros c m e'. apply np_incr_raises.
    + exfalso. rewrite (bool_decide_eq_false_2 _ HM) in Hres.
      rewrite (bool_decide_eq_true_2 _ HW) in Hres.
      rewrite result_bind_Ok in Hres.
      unfold np_zeros in Hres. destruct (n_winters <? 0); [done|].
      rewrite result_bind_Ok in Hres.
      destruct (for_each _ _ (gb tr_obj)) as [c|e] eqn:Hloop; [done|].
      simpl in Hres. injection Hres as ->.
      apply (for_each_raises _ _ IndexError) in Hloop; [done|].
      intros s g e. apply for_each_raises. intros c i e'. apply winter_body_raises.
    + rewrite upper_eq_M in HM. rewrite upper_eq_W in HW. tauto.
  - intros (H1 & H2 & H3 & H4). unfold bin_count_tracks.
    rewrite !bool_decide_eq_false_2; [done|..].
    + rewrite upper_eq_M. tauto.
    + rewrite upper_eq_W. tauto.
Qed.

(** * Further properties of [check_far_from_boundaries] *)

(** The order of binary64 numbers, read off their specification. *)
Lemma SFleb_SFltb_trans (a b c : spec_float) :
  SFleb a b = true → SFltb b c = true → SFltb a c = true.
Proof.
  unfold SFleb, SFltb.
  destruct a as [sa|sa| |sa ma ea], b as [sb|sb| |sb mb eb], c as [sc|sc| |sc mc ec];
    simpl; try discriminate; try reflexivity;
    repeat match goal with s : bool |- _ => destruct s end;
    simpl; try discriminate; try reflexivity;
    change (Pos.compare_cont Eq) with Pos.compare;
    repeat match goal with
    | |- context [Z.compare ?x ?y] => destruct (Z.compare_spec x y)
    | |- context [Pos.compare ?x ?y] => destruct (Pos.compare_spec x y)
    end; simpl; try discriminate; try reflexivity; try lia.
Qed.

Lemma SFltb_SFleb_trans (a b c : spec_float) :
  SFltb a b = true → SFleb b c = true → SFltb a c = true.
Proof.
  unfold SFleb, SFltb.
  destruct a as [sa|sa| |sa ma ea], b as [sb|sb| |sb mb eb], c as [sc|sc| |sc mc ec];
    simpl; try discriminate; try reflexivity;
    repeat match goal with s : bool |- _ => destruct s end;
    simpl; try discriminate; try reflexivity;
    change (Pos.compare_cont Eq) with Pos.compare;
    repeat match goal with
    | |- context [Z.compare ?x ?y] => destruct (Z.compare_spec x y)
    | |- context [Pos.compare ?x ?y] => destruct (Pos.compare_spec x y)
    end; simpl; try discriminate; try reflexivity; try lia.
Qed.

Lemma leb_ltb_trans (a b c : float) :
  PrimFloat.leb a b = true → PrimFloat.ltb b c = true → PrimFloat.ltb a c = true.
Proof. rewrite leb_spec, !ltb_spec. apply SFleb_SFltb_trans. Qed.

Lemma ltb_leb_trans (a b c : float) :
  PrimFloat.ltb a b = true → PrimFloat.leb b c = true → PrimFloat.ltb a c = true.
Proof. rewrite !ltb_spec, leb_spec. apply SFltb_SFleb_trans. Qed.

Lemma leb_nan_l (x : float) : PrimFloat.leb nan x = false.
Proof. rewrite leb_spec. by change (Prim2SF nan) with S754_nan. Qed.

Lemma leb_nan_r (x : float) : PrimFloat.leb x nan = false.
Proof.
  rewrite leb_spec. change (Prim2SF nan) with S754_nan.
  by destruct (Prim2SF x) as [[]|[]| |[] m e].
Qed.

Lemma ltb_nan_l (x : float) : PrimFloat.ltb nan x = false.
Proof. rewrite ltb_spec. by change (Prim2SF nan) with S754_nan. Qed.

Lemma np_getitem_lookup {A : Type} (a : list A) (k : nat) x :
  a !! k = Some x → np_getitem a (Z.of_nat k) = Ok x.
Proof.
  intros Hk. unfold np_getitem.
  rewrite np_index_nonneg by (apply lookup_lt_Some in Hk; lia).
  rewrite result_bind_Ok, Nat2Z.id. by rewrite Hk.
Qed.

(** X7: a box of fewer than four entries raises [IndexError], whatever the
    track and the distance. *)
Theorem check_far_from_boundaries_short_box
    (great_circle : float → float → float → float → float)
    (ot : OctantTrack) (lonlat_box : list float) (dist : float) :
  (length lonlat_box < 4)%nat →
  check_far_from_boundaries great_circle ot lonlat_box dist = Raise IndexError.
Proof.
  intros Hlen.
  destruct lonlat_box as [|b0 [|b1 [|b2 [|b3 rest]]]]; [reflexivity..|].
  simpl in Hlen. lia.
Qed.

Lemma check_far_from_boundaries_short_box_witness :
  check_far_from_boundaries flat_distance [at_lonlat 5 70]
    [(-10)%float; 20%float; 60%float] 250000
  = Raise IndexError.
Proof.
  apply (check_far_from_boundaries_short_box flat_distance [at_lonlat 5 70]
           [(-10)%float; 20%float; 60%float] 250000).
  simpl. lia.
Defined.

Section far_from_boundaries_more.
Variable great_circle : float → float → float → float → float.

(** X8: a box of more than four entries is fatal for a track inside the
    box: the four edges are checked, then the fifth entry makes
    [args[2 * (i // 2)] = ll] raise [IndexError].  A track with a point
    outside the box (of the first four entries) is rejected before that. *)
Theorem check_far_from_boundaries_long_box (ot : OctantTrack)
    (b0 b1 b2 b3 b4 : float) (rest : list float) (dist : float) :
  (ot ≠ [] →
   (∀ row, row ∈ ot → inside_box b0 b1 b2 b3 row) →
   check_far_from_boundaries great_circle ot (b0 :: b1 :: b2 :: b3 :: b4 :: rest) dist
   = Raise IndexError)
  ∧ (∀ row, row ∈ ot → ¬ inside_box b0 b1 b2 b3 row →
     check_far_from_boundaries great_circle ot (b0 :: b1 :: b2 :: b3 :: b4 :: rest) dist
     = Ok false).
Proof.
  assert (Hget : ∀ (k : nat) x,
             (b0 :: b1 :: b2 :: b3 :: b4 :: rest) !! k = Some x →
             np_getitem (b0 :: b1 :: b2 :: b3 :: b4 :: rest) (Z.of_nat k) = Ok x)
    by apply np_getitem_lookup.
  assert (Hstart :
    check_far_from_boundaries great_circle ot (b0 :: b1 :: b2 :: b3 :: b4 :: rest) dist
    = if negb (forallb (in_box b0 b1 b2 b3) ot) then Ok false
      else for_each
             (λ (result : bool) '(i, ll),
                ds ← mapM (_func great_circle i ll) ot;
                Ok (result && forallb (λ d, gt d dist) ds))
             (forallb (in_box b0 b1 b2 b3) ot)
             ((0%nat, b0) :: (1%nat, b1) :: (2%nat, b2) :: (3%nat, b3) :: (4%nat, b4)
              :: imap (λ i ll, (5 + i, ll)%nat) rest)).
  { unfold check_far_from_boundaries.
    assert (H0 : np_getitem (b0 :: b1 :: b2 :: b3 :: b4 :: rest) 0 = Ok b0)
      by exact (Hget 0%nat b0 eq_refl).
    assert (H1 : np_getitem (b0 :: b1 :: b2 :: b3 :: b4 :: rest) 1 = Ok b1)
      by exact (Hget 1%nat b1 eq_refl).
    assert (H2 : np_getitem (b0 :: b1 :: b2 :: b3 :: b4 :: rest) 2 = Ok b2)
      by exact (Hget 2%nat b2 eq_refl).
    assert (H3 : np_getitem (b0 :: b1 :: b2 :: b3 :: b4 :: rest) 3 = Ok b3)
      by exact (Hget 3%nat b3 eq_refl).
    rewrite H0, H1, H2, H3. by rewrite !result_bind_Ok. }
  split.
  - intros Hne Hin. rewrite Hstart.
    assert (Hall : forallb (in_box b0 b1 b2 b3) ot = true) by (by apply (forallb_in_box great_circle)).
    rewrite Hall. cbn [negb for_each].
    rewrite (mapM_func _ 0), (mapM_func _ 1), (mapM_func _ 2), (mapM_func _ 3) by lia.
    rewrite !result_bind_Ok.
    destruct ot as [|row ot']; [done|]. reflexivity.
  - intros row Hrow Hout. rewrite Hstart.
    destruct (forallb (in_box b0 b1 b2 b3) ot) eqn:Hall; [|done].
    exfalso. apply Hout. rewrite (forallb_in_box great_circle) in Hall. by apply Hall.
Qed.

Lemma all_far_app (ot1 ot2 : OctantTrack) box dist :
  all_far great_circle (ot1 ++ ot2) box dist
  = all_far great_circle ot1 box dist && all_far great_circle ot2 box dist.
Proof.
  apply eq_true_iff_eq.
  rewrite andb_true_iff, !all_far_farther_than.
  setoid_rewrite elem_of_app. naive_solver.
Qed.

(** X9: the check of a track made of two parts is the conjunction of the
    checks of the parts: a track passes exactly when each of its points
    does. *)
Theorem check_far_from_boundaries_app (ot1 ot2 : OctantTrack)
    (lon_min lon_max lat_min lat_max dist : float) :
  ∃ r1 r2 : bool,
    check_far_from_boundaries great_circle ot1 [lon_min; lon_max; lat_min; lat_max] dist
    = Ok r1
    ∧ check_far_from_boundaries great_circle ot2 [lon_min; lon_max; lat_min; lat_max] dist
      = Ok r2
    ∧ check_far_from_boundaries great_circle (ot1 ++ ot2)
        [lon_min; lon_max; lat_min; lat_max] dist
      = Ok (r1 && r2).
Proof.
  eexists _, _. rewrite !check_far_from_boundaries_eval.
  split; [done|]. split; [done|]. f_equal.
  rewrite forallb_app, all_far_app.
  generalize (forallb (in_box lon_min lon_max lat_min lat_max) ot1),
    (forallb (in_box lon_min lon_max lat_min lat_max) ot2),
    (all_far great_circle ot1 [lon_min; lon_max; lat_min; lat_max] dist),
    (all_far great_circle ot2 [lon_min; lon_max; lat_min; lat_max] dist).
  by intros [] [] [] [].
Qed.

(** X10: a point without a position is never accepted: a track with a
    [NaN] longitude or latitude is rejected, and so is every non-empty
    track when the distance or an entry of the box is [NaN]. *)
Theorem check_far_from_boundaries_nan (ot : OctantTrack)
    (lon_min lon_max lat_min lat_max dist : float) :
  ot ≠ [] →
  (∃ row, row ∈ ot ∧ (lon row = nan ∨ lat row = nan))
  ∨ nan ∈ [lon_min; lon_max; lat_min; lat_max]
  ∨ dist = nan →
  check_far_from_boundaries great_circle ot [lon_min; lon_max; lat_min; lat_max] dist
  = Ok false.
Proof.
  intros Hne Hnan. rewrite check_far_from_boundaries_eval. f_equal.
  apply not_true_is_false. rewrite andb_true_iff, (forallb_in_box great_circle), all_far_farther_than.
  intros [Hin Hfar].
  destruct ot as [|row0 ot']; [done|].
  destruct Hnan as [(row & Hrow & Hc)|[Hbox| ->]].
  - destruct (Hin row Hrow) as (H1 & H2 & H3 & H4).
    destruct Hc as [Hc|Hc]; rewrite Hc in *.
    + by rewrite leb_nan_l in H2.
    + by rewrite leb_nan_l in H4.
  - destruct (Hin row0 (list_elem_of_here _ _)) as (H1 & H2 & H3 & H4).
    rewrite !elem_of_cons, elem_of_nil in Hbox.
    destruct Hbox as [<-|[<-|[<-|[<-|[]]]]].
    + by rewrite leb_nan_l in H1.
    + by rewrite leb_nan_r in H2.
    + by rewrite leb_nan_l in H3.
    + by rewrite leb_nan_r in H4.
  - specialize (Hfar row0 (list_elem_of_here _ _) 0%nat lon_min eq_refl).
    by rewrite ltb_nan_l in Hfar.
Qed.

(** X11: the check is monotone in the distance: a track that is accepted
    with [dist] is accepted with every smaller distance. *)
Theorem check_far_from_boundaries_smaller_dist (ot : OctantTrack)
    (lon_min lon_max lat_min lat_max dist dist' : float) :
  PrimFloat.leb dist' dist = true →
  check_far_from_boundaries great_circle ot [lon_min; lon_max; lat_min; lat_max] dist
  = Ok true →
  check_far_from_boundaries great_circle ot [lon_min; lon_max; lat_min; lat_max] dist'
  = Ok true.
Proof.
  intros Hle. rewrite !check_far_from_boundaries_eval. intros [= H]. f_equal.
  apply andb_true_iff in H as [Hin Hfar]. apply andb_true_iff. split; [done|].
  rewrite all_far_farther_than in Hfar |- *.
  intros row Hrow i ll Hi. eapply leb_ltb_trans; [done|]. by apply Hfar.
Qed.
End far_from_boundaries_more.

Lemma check_far_from_boundaries_nan_witness :
  check_far_from_boundaries flat_distance [at_lonlat 5 70; at_lonlat nan 70]
    [(-10)%float; 20%float; 60%float; 80%float] 250000
  = Ok false.
Proof.
  apply (check_far_from_boundaries_nan flat_distance).
  - discriminate.
  - left. exists (at_lonlat nan 70). split; [|by left].
    apply list_elem_of_further, list_elem_of_here.
Defined.

Lemma check_far_from_boundaries_smaller_dist_witness :
  check_far_from_boundaries flat_distance [at_lonlat 5 70]
    [(-10)%float; 20%float; 60%float; 80%float] 100000
  = Ok true.
Proof.
  apply (check_far_from_boundaries_smaller_dist flat_distance [at_lonlat 5 70]
           (-10) 20 60 80 250000 100000); reflexivity.
Defined.

(** * Further properties of [check_by_mask] *)

Section check_by_mask_more.
Variable mask_tracks : grid → grid → grid → list (float * float) → float → float.

(** The call in two steps: the boundary mask, then the stored mask and the
    flag. *)
Lemma check_by_mask_steps ot tr lsm lmask_thresh rad mask_thresh :
  check_by_mask mask_tracks ot tr (XrDataArray lsm) lmask_thresh rad mask_thresh
  = match boundary_mask_of (conf tr) lsm with
    | Raise e => (Raise e, tr)
    | Ok bm =>
        (Ok (PrimFloat.ltb
               (mask_tracks (themask_of bm lsm lmask_thresh)
                            (fst (np_meshgrid (longitude lsm) (latitude lsm)))
                            (snd (np_meshgrid (longitude lsm) (latitude lsm)))
                            (lonlat_c ot) (rad * 1000)%float)
               mask_thresh),
         set_themask tr (themask_of bm lsm lmask_thresh))
    end.
Proof. reflexivity. Qed.
End check_by_mask_more.

Lemma grid_shape_mesh {A : Type} (f : float → float → A) lons lats :
  length (mesh f lons lats) = length lats
  ∧ Forall (λ row, length row = length lons) (mesh f lons lats).
Proof.
  split; [apply length_mesh|]. unfold mesh.
  apply Forall_fmap, Forall_forall. intros la _. simpl. by rewrite length_fmap.
Qed.


Lemma cell_zip2d {A B C : Type} (f : A → B → C) a b (j i : nat) x y :
  cell a j i = Some x → cell b j i = Some y → cell (zip2d f a b) j i = Some (f x y).
Proof.
  unfold cell, zip2d. intros Ha Hb. rewrite lookup_zip_with.
  destruct (a !! j) as [ra|]; [|done]. destruct (b !! j) as [rb|]; [|done].
  simpl in *. by rewrite lookup_zip_with, Ha, Hb.
Qed.

Lemma cell_is_Some (nlat nlon : nat) (g : grid) (j i : nat) :
  grid_shape nlat nlon g → (j < nlat)%nat → (i < nlon)%nat → is_Some (cell g j i).
Proof.
  intros [Hlen Hrows] Hj Hi. unfold cell.
  destruct (lookup_lt_is_Some_2 g j) as [row Hrow]; [lia|].
  rewrite Hrow. simpl. apply lookup_lt_is_Some_2.
  rewrite Forall_lookup in Hrows. rewrite (Hrows j row Hrow). done.
Qed.

Lemma cell_lt {A : Type} (a : list (list A)) (j i : nat) x :
  cell a j i = Some x → (j < length a)%nat.
Proof.
  unfold cell. destruct (a !! j) as [row|] eqn:Hj; [|done].
  intros _. by eapply lookup_lt_Some.
Qed.

Lemma boundary_mask_of_bounded (c : TrackSettings) (lsm : LandSeaMask) :
  bounded c = true →
  boundary_mask_of c lsm
  = Ok (mesh (λ lo la, if outside c lo la then 1%float else 0%float)
             (longitude lsm) (latitude lsm)).
Proof.
  intros Hb. unfold boundary_mask_of. rewrite np_meshgrid_mesh.
  rewrite inner_idx_final, Hb. unfold idx_of, assign_outside.
  by rewrite map2d_mesh, zip2d_mesh.
Qed.

Lemma boundary_mask_of_unbounded (c : TrackSettings) (lsm : LandSeaMask) :
  bounded c = false →
  boundary_mask_of c lsm
  = (k ← np_index (length (latitude lsm)) (-2);
     Ok (alter (λ row : list float, (λ _, 1%float) <$> row) k
               (mesh (λ _ _, 0%float) (longitude lsm) (latitude lsm)))).
Proof.
  intros Hb. unfold boundary_mask_of. rewrite np_meshgrid_mesh.
  rewrite inner_idx_final, Hb. unfold idx_of, assign_outside.
  by rewrite map2d_mesh, length_mesh.
Qed.

Lemma boundary_mask_of_shape (c : TrackSettings) (lsm : LandSeaMask) bm :
  boundary_mask_of c lsm = Ok bm →
  grid_shape (length (latitude lsm)) (length (longitude lsm)) bm.
Proof.
  destruct (bounded c) eqn:Hb.
  - rewrite boundary_mask_of_bounded by done. intros [= <-]. apply grid_shape_mesh.
  - rewrite boundary_mask_of_unbounded by done.
    destruct (np_index _ _) as [k|e]; [|done]. simpl. intros [= <-].
    destruct (grid_shape_mesh (λ _ _ : float, 0%float) (longitude lsm) (latitude lsm))
      as [Hlen Hrows].
    split; [by rewrite length_alter|].
    apply Forall_lookup. intros j row Hj. rewrite Forall_lookup in Hrows.
    rewrite list_lookup_alter in Hj. case_decide as Hkj.
    + subst j. destruct (mesh _ _ _ !! k) as [row0|] eqn:Hk; [|done].
      simpl in Hj. injection Hj as <-. rewrite length_fmap. by eapply Hrows.
    + by eapply Hrows.
Qed.

Lemma grid_shape_zip2d {A B C : Type} (f : A → B → C) (nlat nlon : nat)
    (a : list (list A)) (b : list (list B)) :
  length a = nlat → Forall (λ row, length row = nlon) a →
  length b = nlat → Forall (λ row, length row = nlon) b →
  length (zip2d f a b) = nlat ∧ Forall (λ row, length row = nlon) (zip2d f a b).
Proof.
  intros Ha Hra Hb Hrb. unfold zip2d. split.
  - rewrite length_zip_with. lia.
  - apply Forall_lookup. intros j row Hj. rewrite lookup_zip_with in Hj.
    destruct (a !! j) as [ra|] eqn:Haj; [|done].
    destruct (b !! j) as [rb|] eqn:Hbj; [|done].
    simpl in Hj. injection Hj as <-. rewrite length_zip_with.
    rewrite Forall_lookup in Hra. rewrite Forall_lookup in Hrb.
    rewrite (Hra j ra Haj), (Hrb j rb Hbj). lia.
Qed.

Lemma cells_zip2d {A B C : Type} (f : A → B → C) (P : C → Prop)
    (a : list (list A)) (b : list (list B)) :
  (∀ x y, P (f x y)) → Forall (Forall P) (zip2d f a b).
Proof.
  intros Hf. unfold zip2d. apply Forall_lookup. intros j row Hj.
  rewrite lookup_zip_with in Hj.
  destruct (a !! j) as [ra|]; [|done]. destruct (b !! j) as [rb|]; [|done].
  simpl in Hj. injection Hj as <-.
  apply Forall_lookup. intros i v Hi. rewrite lookup_zip_with in Hi.
  destruct (ra !! i) as [x|]; [|done]. destruct (rb !! i) as [y|]; [|done].
  simpl in Hi. injection Hi as <-. apply Hf.
Qed.

Lemma cell_bounds (nlat nlon : nat) (g : grid) (j i : nat) v :
  grid_shape nlat nlon g → cell g j i = Some v → (j < nlat)%nat ∧ (i < nlon)%nat.
Proof.
  intros [Hlen Hrows]. unfold cell.
  destruct (g !! j) as [row|] eqn:Hj; [|done]. simpl. intros Hi.
  split; [rewrite <- Hlen; by eapply lookup_lt_Some|].
  rewrite Forall_lookup in Hrows. rewrite <- (Hrows j row Hj). by eapply lookup_lt_Some.
Qed.

Section check_by_mask_properties.
Variable mask_tracks : grid → grid → grid → list (float * float) → float → float.



(** X14: a successful call stores a mask of the shape of the land-sea
    mask whose cells are all 0.0 or 1.0. *)
Theorem check_by_mask_binary_mask (ot : OctantTrack) (tr : TrackRun)
    (lsm : LandSeaMask) (lmask_thresh rad mask_thresh : float) (flag : bool) :
  lsm_shape lsm →
  fst (check_by_mask mask_tracks ot tr (XrDataArray lsm) lmask_thresh rad mask_thresh)
  = Ok flag →
  ∃ m,
    themask (snd (check_by_mask mask_tracks ot tr (XrDataArray lsm)
                                lmask_thresh rad mask_thresh)) = Some m
    ∧ grid_shape (length (latitude lsm)) (length (longitude lsm)) m
    ∧ Forall (Forall (λ v, v = 0%float ∨ v = 1%float)) m.
Proof.
  intros [Hlen Hrows]. rewrite check_by_mask_steps.
  destruct (boundary_mask_of (conf tr) lsm) as [bm|e] eqn:Hbm; [|done].
  intros _. exists (themask_of bm lsm lmask_thresh). split; [done|].
  destruct (boundary_mask_of_shape _ _ _ Hbm) as [Hl Hr].
  split.
  - by apply grid_shape_zip2d.
  - apply cells_zip2d. intros b l.
    destruct (PrimFloat.eqb b 1 || ge l lmask_thresh); [by right|by left].
Qed.

(** X15: land is always masked: after a successful call every cell whose
    land fraction is at least [lmask_thresh] is 1.0 in the stored mask,
    whatever the bounds. *)
Theorem check_by_mask_land_masked (ot : OctantTrack) (tr : TrackRun)
    (lsm : LandSeaMask) (lmask_thresh rad mask_thresh : float) (flag : bool)
    (j i : nat) (l : float) :
  lsm_shape lsm →
  fst (check_by_mask mask_tracks ot tr (XrDataArray lsm) lmask_thresh rad mask_thresh)
  = Ok flag →
  cell (values lsm) j i = Some l →
  PrimFloat.leb lmask_thresh l = true →
  ∃ m,
    themask (snd (check_by_mask mask_tracks ot tr (XrDataArray lsm)
                                lmask_thresh rad mask_thresh)) = Some m
    ∧ cell m j i = Some 1%float.
Proof.
  intros Hshape. rewrite check_by_mask_steps.
  destruct (boundary_mask_of (conf tr) lsm) as [bm|e] eqn:Hbm; [|done].
  intros _ Hl Hland. exists (themask_of bm lsm lmask_thresh). split; [done|].
  destruct (cell_bounds _ _ _ j i l Hshape Hl) as [Hj Hi].
  destruct (cell_is_Some _ _ bm j i (boundary_mask_of_shape _ _ _ Hbm) Hj Hi)
    as [b Hb].
  unfold themask_of. rewrite (cell_zip2d _ _ _ _ _ b l Hb Hl).
  unfold ge. by rewrite Hland, orb_true_r.
Qed.

(** X16: the flag is monotone in [mask_thresh]: a track that is accepted
    with one threshold is accepted with every larger one, and the stored
    mask is the same. *)
Theorem check_by_mask_larger_threshold (ot : OctantTrack) (tr : TrackRun)
    (lsm : py_lsm) (lmask_thresh rad mask_thresh mask_thresh' : float) :
  PrimFloat.leb mask_thresh mask_thresh' = true →
  fst (check_by_mask mask_tracks ot tr lsm lmask_thresh rad mask_thresh) = Ok true →
  fst (check_by_mask mask_tracks ot tr lsm lmask_thresh rad mask_thresh') = Ok true
  ∧ snd (check_by_mask mask_tracks ot tr lsm lmask_thresh rad mask_thresh')
    = snd (check_by_mask mask_tracks ot tr lsm lmask_thresh rad mask_thresh).
Proof.
  intros Hle. destruct lsm as [lsm|]; [|done].
  rewrite !check_by_mask_steps.
  destruct (boundary_mask_of (conf tr) lsm) as [bm|e]; [|done].
  cbn [fst snd]. intros [= Hflag]. split; [|done]. f_equal.
  by eapply ltb_leb_trans.
Qed.

(** X17: with no bound in force the assignment through [~inner_idx]
    addresses row -2: on fewer than two latitudes the call raises
    [IndexError] and stores nothing; on two or more it succeeds and the
    last row but one of the stored mask is 1.0 in every column. *)
Theorem check_by_mask_unbounded_row (ot : OctantTrack) (tr : TrackRun)
    (lsm : LandSeaMask) (lmask_thresh rad mask_thresh : float) :
  bounded (conf tr) = false →
  lsm_shape lsm →
  ((length (latitude lsm) < 2)%nat →
   check_by_mask mask_tracks ot tr (XrDataArray lsm) lmask_thresh rad mask_thresh
   = (Raise IndexError, tr))
  ∧ ((2 ≤ length (latitude lsm))%nat →
     ∃ flag m,
       check_by_mask mask_tracks ot tr (XrDataArray lsm) lmask_thresh rad mask_thresh
       = (Ok flag, set_themask tr m)
       ∧ ∀ i : nat, (i < length (longitude lsm))%nat →
           cell m (length (latitude lsm) - 2) i = Some 1%float).
Proof.
  intros Hb Hshape. rewrite check_by_mask_steps, boundary_mask_of_unbounded by done.
  split.
  - intros Hn. unfold np_index.
    destruct (length (latitude lsm)) as [|[|n]]; [done|done|lia].
  - intros Hn.
    assert (Hk : np_index (length (latitude lsm)) (-2)
                 = Ok (length (latitude lsm) - 2)%nat).
    { unfold np_index.
      replace ((0 <=? -2) && (-2 <? Z.of_nat (length (latitude lsm)))) with false by done.
      destruct (Z.leb_spec (- Z.of_nat (length (latitude lsm))) (-2)); [|lia].
      simpl. f_equal. lia. }
    rewrite Hk, result_bind_Ok. eexists _, _. split; [done|].
    intros i Hi.
    assert (Hj : (length (latitude lsm) - 2 < length (latitude lsm))%nat) by lia.
    destruct (cell_is_Some _ _ (values lsm) _ i Hshape Hj Hi) as [l Hl].
    unfold themask_of.
    destruct (lookup_lt_is_Some_2 (latitude lsm) _ Hj) as [la Hla].
    destruct (lookup_lt_is_Some_2 (longitude lsm) _ Hi) as [lo Hlo].
    erewrite cell_zip2d; [|(unfold cell; rewrite list_lookup_alter_eq; unfold mesh;
      rewrite list_lookup_fmap, Hla; simpl;
      by rewrite !list_lookup_fmap, Hlo)|done].
    done.
Qed.
End check_by_mask_properties.


Lemma check_by_mask_binary_mask_witness :
  ∃ m,
    themask (snd (check_by_mask quarter_masked [at_lonlat 5 70]
                    (with_conf example_run west_bound) (XrDataArray coast_3x2)
                    1 50 0.5)) = Some m
    ∧ grid_shape (length (latitude coast_3x2)) (length (longitude coast_3x2)) m
    ∧ Forall (Forall (λ v, v = 0%float ∨ v = 1%float)) m.
Proof.
  apply (check_by_mask_binary_mask quarter_masked [at_lonlat 5 70]
           (with_conf example_run west_bound) coast_3x2 1 50 0.5 true).
  - split; [reflexivity|]. repeat constructor.
  - reflexivity.
Defined.

Lemma check_by_mask_land_masked_witness :
  ∃ m,
    themask (snd (check_by_mask quarter_masked [at_lonlat 5 70]
                    (with_conf example_run no_bounds) (XrDataArray coast_3x2)
                    1 50 0.5)) = Some m
    ∧ cell m 1 1 = Some 1%float.
Proof.
  apply (check_by_mask_land_masked quarter_masked [at_lonlat 5 70]
           (with_conf example_run no_bounds) coast_3x2 1 50 0.5 true 1 1 1%float).
  - split; [reflexivity|]. repeat constructor.
  - reflexivity.
  - reflexivity.
  - reflexivity.
Defined.

Lemma check_by_mask_larger_threshold_witness :
  fst (check_by_mask quarter_masked [at_lonlat 5 70]
         (with_conf example_run west_bound) (XrDataArray coast_3x2) 1 50 0.75)
  = Ok true
  ∧ snd (check_by_mask quarter_masked [at_lonlat 5 70]
           (with_conf example_run west_bound) (XrDataArray coast_3x2) 1 50 0.75)
    = snd (check_by_mask quarter_masked [at_lonlat 5 70]
             (with_conf example_run west_bound) (XrDataArray coast_3x2) 1 50 0.5).
Proof.
  apply (check_by_mask_larger_threshold quarter_masked [at_lonlat 5 70]
           (with_conf example_run west_bound) (XrDataArray coast_3x2) 1 50 0.5 0.75);
    reflexivity.
Defined.

Lemma check_by_mask_unbounded_row_witness :
  ((length (latitude coast_3x2) < 2)%nat →
   check_by_mask quarter_masked [at_lonlat 5 70] (with_conf example_run no_bounds)
                 (XrDataArray coast_3x2) 1 50 0.5
   = (Raise IndexError, with_conf example_run no_bounds))
  ∧ ((2 ≤ length (latitude coast_3x2))%nat →
     ∃ flag m,
       check_by_mask quarter_masked [at_lonlat 5 70] (with_conf example_run no_bounds)
                     (XrDataArray coast_3x2) 1 50 0.5
       = (Ok flag, set_themask (with_conf example_run no_bounds) m)
       ∧ ∀ i : nat, (i < length (longitude coast_3x2))%nat →
           cell m (length (latitude coast_3x2) - 2) i = Some 1%float).
Proof.
  apply (check_by_mask_unbounded_row quarter_masked [at_lonlat 5 70]
           (with_conf example_run no_bounds) coast_3x2 1 50 0.5).
  - reflexivity.
  - split; [reflexivity|]. repeat constructor.
Defined.

(** * Further properties of [calc_all_dens] *)

Lemma for_append_Raise {A B : Type} (body : A → M B) (g : A → B)
    (calls : A → list call) (pre : list A) (x : A) (post : list A)
    (e : exn) (last_calls : list call) :
  (∀ y, y ∈ pre → ∀ log, body y log = (Ok (g y), log ++ calls y)) →
  (∀ log, body x log = (Raise e, log ++ last_calls)) →
  ∀ acc log,
    for_append body acc (pre ++ x :: post) log
    = (Raise e, log ++ (pre ≫= calls) ++ last_calls).
Proof.
  intros Hpre Hx. induction pre as [|y pre IH]; intros acc log; simpl.
  - unfold bind. by rewrite Hx.
  - unfold bind. rewrite Hpre by left.
    rewrite IH by (intros z Hz; apply Hpre; by right).
    by rewrite <- !app_assoc.
Qed.

Section calc_all_dens_more.
Context {kwargs : Type}.
Variable density : TrackRun → grid → grid → string → string → kwargs → result grid.

(** The body of the loop over the subsets, when every density of the
    subset succeeds. *)
Lemma subset_body_Ok tr_obj lon2d lat2d (density_types : list string) kw
    (dens_dim : Coord) (f : string → grid) (s : string) (log : list call) :
  density_types ≠ [] →
  coord_data dens_dim = density_types →
  (∀ b, b ∈ density_types → density tr_obj lon2d lat2d b s kw = Ok (f b)) →
  bind (for_append (λ by_, call_density density tr_obj lon2d lat2d by_ s kw)
                   [] density_types)
       (λ list2, lift (xr_concat list2 dens_dim)) log
  = (Ok {| stack_dim := dens_dim; stack_items := f <$> density_types |},
     log ++ (density_types ≫= λ b, [(b, s)])).
Proof.
  intros Hne Hdim Hf. unfold bind.
  rewrite (for_append_Ok _ f (λ b, [(b, s)])).
  - unfold lift. rewrite app_nil_l.
    rewrite xr_concat_Ok; [done| |by rewrite Hdim, length_fmap].
    by destruct density_types.
  - intros b Hb log'. unfold call_density. by rewrite Hf.
Qed.

(** X18: an empty list of subsets, or an empty list of density types,
    makes the call fail with [ValueError] ([xr.concat] has nothing to
    concatenate) and no density is computed. *)
Theorem calc_all_dens_empty_lists (tr_obj : TrackRun) (lon2d lat2d : grid)
    (subsets density_types : list string) (kw : kwargs) (log : list call) :
  subsets = [] ∨ density_types = [] →
  calc_all_dens density tr_obj lon2d lat2d (PyList subsets) density_types kw log
  = (Raise ValueError, log).
Proof.
  intros [-> | ->]; [reflexivity|].
  destruct subsets as [|s subsets]; reflexivity.
Qed.

(** X19: the first density call that raises ends the computation: its
    exception is the outcome, and the calls made are those of the subsets
    before, those of the density types before within the failing subset,
    and the failing call itself. *)
Theorem calc_all_dens_first_failure (tr_obj : TrackRun) (lon2d lat2d : grid)
    (done_subsets : list string) (s : string) (later_subsets : list string)
    (done_types : list string) (b : string) (later_types : list string)
    (kw : kwargs) (e : exn) (log : list call) :
  (∀ s' b', s' ∈ done_subsets → b' ∈ done_types ++ b :: later_types →
     ∃ g, density tr_obj lon2d lat2d b' s' kw = Ok g) →
  (∀ b', b' ∈ done_types → ∃ g, density tr_obj lon2d lat2d b' s kw = Ok g) →
  density tr_obj lon2d lat2d b s kw = Raise e →
  calc_all_dens density tr_obj lon2d lat2d
    (PyList (done_subsets ++ s :: later_subsets))
    (done_types ++ b :: later_types) kw log
  = (Raise e,
     log ++ (done_subsets ≫= λ s', (done_types ++ b :: later_types) ≫= λ b', [(b', s')])
         ++ (done_types ≫= λ b', [(b', s)]) ++ [(b, s)]).
Proof.
  intros Hdone Htypes Hfail.
  set (f := λ s' b', match density tr_obj lon2d lat2d b' s' kw with
                     | Ok g => g
                     | Raise _ => []
                     end).
  set (dts := done_types ++ b :: later_types).
  set (dens_dim := {| coord_name := "dens_type"; coord_dims := "dens_type";
                      coord_data := dts |}).
  unfold calc_all_dens.
  cbn [negb is_iterable is_str orb xr_DataArray py_iter].
  rewrite bind_ret_l. cbn [xr_DataArray py_iter].
  rewrite !bind_lift_Ok. fold dts dens_dim.
  unfold bind at 1.
  rewrite (for_append_Raise _
             (λ s', {| stack_dim := dens_dim; stack_items := f s' <$> dts |})
             (λ s', dts ≫= λ b', [(b', s')]) done_subsets s later_subsets e
             ((done_types ≫= λ b', [(b', s)]) ++ [(b, s)])).
  - done.
  - intros s' Hs' log'. apply subset_body_Ok; [by destruct done_types|done|].
    intros b' Hb'. destruct (Hdone s' b' Hs' Hb') as [g Hg]. unfold f. by rewrite Hg.
  - intros log'. unfold bind, dts.
    rewrite (for_append_Raise _ (f s) (λ b', [(b', s)]) done_types b later_types e
               [(b, s)]).
    + done.
    + intros b' Hb' log''. unfold call_density.
      destruct (Htypes b' Hb') as [g Hg]. unfold f. by rewrite Hg.
    + intros log''. unfold call_density. by rewrite Hfail.
Qed.

(** X20: without [subsets], a categorised track run is processed label by
    label: when every density succeeds, the subset axis carries
    [cat_labels] in their order and slice [(i, j)] is the density of
    [cat_labels[i]] by [density_types[j]]. *)
Theorem calc_all_dens_default_labels (tr_obj : TrackRun) (lon2d lat2d : grid)
    (density_types : list string) (kw : kwargs) (log : list call) :
  is_categorised tr_obj = true →
  cat_labels tr_obj ≠ [] →
  density_types ≠ [] →
  (∀ s b, s ∈ cat_labels tr_obj → b ∈ density_types →
     ∃ g, density tr_obj lon2d lat2d b s kw = Ok g) →
  ∃ da,
    calc_all_dens density tr_obj lon2d lat2d PyNone density_types kw log
    = (Ok da, log ++ (cat_labels tr_obj ≫= λ s, density_types ≫= λ b, [(b, s)]))
    ∧ has_labels da (cat_labels tr_obj) density_types
    ∧ ∀ (i j : nat) s b,
        cat_labels tr_obj !! i = Some s → density_types !! j = Some b →
        ∃ g, density tr_obj lon2d lat2d b s kw = Ok g ∧ slice da i j = Some g.
Proof.
  intros Hcat Hs Hb Hdens.
  set (f := λ s b, match density tr_obj lon2d lat2d b s kw with
                   | Ok g => g
                   | Raise _ => []
                   end).
  assert (Hf : ∀ s b, s ∈ cat_labels tr_obj → b ∈ density_types →
                 density tr_obj lon2d lat2d b s kw = Ok (f s b)).
  { intros s b Hin Hbin. destruct (Hdens s b Hin Hbin) as (g & Hg). unfold f.
    by rewrite Hg. }
  set (dens_dim := {| coord_name := "dens_type"; coord_dims := "dens_type";
                      coord_data := density_types |}).
  set (subset_dim := {| coord_name := "subset"; coord_dims := "subset";
                        coord_data := cat_labels tr_obj |}).
  set (slab := λ s, {| stack_dim := dens_dim; stack_items := f s <$> density_types |}).
  exists {| da_name := "density";
            da_data := {| stack_dim := subset_dim;
                          stack_items := slab <$> cat_labels tr_obj |} |}.
  split; [|split].
  - unfold calc_all_dens. rewrite Hcat.
    rewrite bind_ret_l. cbn [xr_DataArray py_iter].
    rewrite !bind_lift_Ok. fold dens_dim subset_dim.
    unfold bind at 1.
    rewrite (for_append_Ok _ slab (λ s, density_types ≫= λ b, [(b, s)])).
    + rewrite app_nil_l.
      rewrite xr_concat_Ok; [done| |by rewrite length_fmap].
      by destruct (cat_labels tr_obj).
    + intros s Hin log'. apply subset_body_Ok; [done..|].
      intros b Hbin. by apply Hf.
  - split; [done|]. simpl. apply Forall_fmap, Forall_forall. by intros s Hin.
  - intros i j s b Hi Hj. exists (f s b). split.
    + apply Hf; by eapply list_elem_of_lookup_2.
    + unfold slice. simpl. rewrite list_lookup_fmap, Hi. simpl.
      by rewrite list_lookup_fmap, Hj.
Qed.
End calc_all_dens_more.

Lemma calc_all_dens_empty_lists_witness :
  calc_all_dens example_density example_run [] [] (PyList ["weak"]) [] tt []
  = (Raise ValueError, []).
Proof.
  apply (calc_all_dens_empty_lists example_density example_run [] [] ["weak"] [] tt []).
  by right.
Defined.

Lemma calc_all_dens_first_failure_witness :
  calc_all_dens example_density example_run [] []
    (PyList (["weak"] ++ "broken" :: ["strong"]))
    (["point"; "track"] ++ "genesis" :: ["lysis"]) tt []
  = (Raise ValueError,
     [] ++ (["weak"] ≫= λ s', (["point"; "track"] ++ "genesis" :: ["lysis"])
                                ≫= λ b', [(b', s')])
        ++ (["point"; "track"] ≫= λ b', [(b', "broken")]) ++ [("genesis", "broken")]).
Proof.
  apply (calc_all_dens_first_failure example_density example_run [] []
           ["weak"] "broken" ["strong"] ["point"; "track"] "genesis" ["lysis"]
           tt ValueError []).
  - intros s' b' Hs' _. apply list_elem_of_singleton in Hs' as ->.
    exists [[1%float; 2%float]]. unfold example_density.
    rewrite bool_decide_eq_false_2; [done|]. by intros [? _].
  - intros b' Hb'. exists [[1%float; 2%float]]. unfold example_density.
    rewrite bool_decide_eq_false_2; [done|]. intros [_ ->].
    rewrite !elem_of_cons, elem_of_nil in Hb'. by destruct Hb' as [?|[?|[]]].
  - reflexivity.
Defined.

Lemma calc_all_dens_default_labels_witness :
  ∃ da,
    calc_all_dens example_density categorised_run [] [] PyNone DENSITY_TYPES tt []
    = (Ok da, [] ++ (cat_labels categorised_run
                       ≫= λ s, DENSITY_TYPES ≫= λ b, [(b, s)]))
    ∧ has_labels da (cat_labels categorised_run) DENSITY_TYPES
    ∧ ∀ (i j : nat) s b,
        cat_labels categorised_run !! i = Some s → DENSITY_TYPES !! j = Some b →
        ∃ g, example_density categorised_run [] [] b s tt = Ok g
             ∧ slice da i j = Some g.
Proof.
  apply (calc_all_dens_default_labels example_density categorised_run [] []
           DENSITY_TYPES tt []).
  - reflexivity.
  - discriminate.
  - discriminate.
  - intros s b Hs _. exists [[1%float; 2%float]]. unfold example_density.
    rewrite bool_decide_eq_false_2; [done|]. intros [-> _].
    simpl in Hs. rewrite !elem_of_cons, elem_of_nil in Hs. by destruct Hs as [?|[?|[]]].
Defined.
